(** * zcash-api: the REST to JSON-RPC pass-through, embedded in Rocq

    The development follows the layering of the repository:

    - [JS]: the fragment of the JavaScript value world the handlers rely on
      (truthiness, [||], [parseInt], [isNaN]);
    - the types of [src/types/zcash.types.ts] and the axios client;
    - [ZCashService] ([src/services/zcash.service.ts]): [rpcCall] and the
      seventeen one-line wrappers around it;
    - [ZCashController] ([src/controllers/zcash.controller.ts]): the
      seventeen request handlers;
    - [Config] ([src/config/config.ts]), and [Routing] and [Routes]
      ([src/routes/zcash.routes.ts]): the settings read from the
      environment and the route table with Express's matching;
    - the properties of the specification, stated on these definitions.

    Numbers are exact: a JavaScript number is [NaN] or a rational, and the
    correlation id is an integer.  The rounding of IEEE doubles (beyond
    2^53 for integers) is outside the model.  Characters are code units
    below 256. *)

From Stdlib Require Import ZArith QArith String Ascii List Lia.
From stdpp Require Import base option strings gmap pretty sorting.
Import ListNotations.

Set Warnings "-register-all".

Local Open Scope Z_scope.
Local Open Scope string_scope.
Local Open Scope list_scope.

(** ** The JavaScript fragment *)

Module JS.

(** A JavaScript number, as far as the handlers can tell them apart:
    [NaN] or a finite value, taken exactly. A double is this value on
    the integers of magnitude up to 2^53; beyond them the real arithmetic
    rounds, and overflows to [Infinity], which the model does not
    follow. *)
Inductive number : Type :=
| NaN
| Fin (q : Q).

(** Integer literals of the source ([1], [10], [9999999], ...). *)
Definition int (z : Z) : number := Fin (inject_Z z).

(** Values that travel in JSON bodies and RPC results ([any] in the
    source). Objects keep their fields in insertion order. *)
Inductive value : Type :=
| VUndefined
| VNull
| VBool (b : bool)
| VNumber (n : number)
| VString (s : string)
| VArray (items : list value)
| VObject (fields : list (string * value)).

(** ToBoolean on numbers: [NaN], [+0] and [-0] are falsy. *)
Definition number_truthy (n : number) : bool :=
  match n with
  | NaN => false
  | Fin q => negb (Qnum q =? 0)%Z
  end.

(** ToBoolean on strings: only the empty string is falsy. *)
Definition string_truthy (s : string) : bool :=
  match s with
  | EmptyString => false
  | String _ _ => true
  end.

(** ToBoolean on a possibly undefined string ([string | undefined]). *)
Definition opt_truthy (o : option string) : bool :=
  match o with
  | None => false
  | Some s => string_truthy s
  end.

(** ToBoolean on arbitrary values. *)
Definition truthy (v : value) : bool :=
  match v with
  | VUndefined | VNull => false
  | VBool b => b
  | VNumber n => number_truthy n
  | VString s => string_truthy s
  | VArray _ | VObject _ => true
  end.

(** [a || b] at the three types it is used at. *)
Definition or_number (a b : number) : number :=
  if number_truthy a then a else b.

Definition or_value (a b : value) : value :=
  if truthy a then a else b.

Definition or_string (a : option string) (b : string) : string :=
  match a with
  | Some s => if string_truthy s then s else b
  | None => b
  end.

(** [isNaN] on a number. *)
Definition isNaN (n : number) : bool :=
  match n with
  | NaN => true
  | Fin _ => false
  end.

(** *** [parseInt(string)] with the radix left out (ECMA-262, 19.2.5) *)

(** StrWhiteSpaceChar, restricted to code units below 256: TAB, LF, VT,
    FF, CR, SP and NBSP. *)
Definition isWhiteSpace (c : ascii) : bool :=
  let n := N_of_ascii c in
  ((n =? 9) || (n =? 10) || (n =? 11) || (n =? 12) || (n =? 13)
   || (n =? 32) || (n =? 160))%N.

Fixpoint trimStart (s : string) : string :=
  match s with
  | EmptyString => EmptyString
  | String c rest => if isWhiteSpace c then trimStart rest else s
  end.

(** The value of a character as a digit in some radix up to 36. *)
Definition digitValue (c : ascii) : option Z :=
  let n := Z.of_N (N_of_ascii c) in
  if ((48 <=? n) && (n <=? 57))%Z then Some (n - 48)
  else if ((97 <=? n) && (n <=? 122))%Z then Some (n - 87)
  else if ((65 <=? n) && (n <=? 90))%Z then Some (n - 55)
  else None.

Definition radixDigit (R : Z) (c : ascii) : option Z :=
  match digitValue c with
  | Some d => if (d <? R)%Z then Some d else None
  | None => None
  end.

(** The mathematical integer denoted by the longest prefix of radix-[R]
    digits; [acc] is [None] as long as no digit has been read. *)
Fixpoint parseDigits (R : Z) (acc : option Z) (s : string) : option Z :=
  match s with
  | EmptyString => acc
  | String c rest =>
      match radixDigit R c with
      | Some d => parseDigits R (Some (R * default 0 acc + d)) rest
      | None => acc
      end
  end.

(** The sign prefix: steps 4 to 6 of the algorithm. *)
Definition splitSign (s : string) : Z * string :=
  match s with
  | String "-" rest => (-1, rest)
  | String "+" rest => (1, rest)
  | _ => (1, s)
  end.

(** The radix prefix: with no radix argument, [0x] and [0X] select 16. *)
Definition splitRadix (s : string) : Z * string :=
  match s with
  | String "0" (String "x" rest) => (16, rest)
  | String "0" (String "X" rest) => (16, rest)
  | _ => (10, s)
  end.

(** [parseInt(x)] for [x : string | undefined]; [undefined] is first
    turned into the string ["undefined"]. The result is the integer the
    digits denote; the real function returns the double nearest to it,
    which is that integer up to a magnitude of 2^53. *)
Definition parseInt (input : option string) : number :=
  let inputString := default "undefined" input in
  let '(sign, unsigned) := splitSign (trimStart inputString) in
  let '(R, digits) := splitRadix unsigned in
  match parseDigits R None digits with
  | None => NaN
  | Some mathInt => int (sign * mathInt)
  end.

End JS.
Import JS.

(** ** The wire types ([src/types/zcash.types.ts]) *)

Record ZCashRPCRequest : Type := {
  jsonrpc : string;
  id : Z;
  method : string;
  params : list value;
}.

(** The non-null alternative of the response's [error] field. *)
Record RPCError : Type := {
  code : Z;
  message : string;
}.

Record ZCashRPCResponse : Type := {
  result : value;
  error : option RPCError;
  echoed_id : Z;
}.

(** ** The axios client, as far as [rpcCall] looks at it *)

(** An HTTP response; only its [data] is read. *)
Record AxiosResponse (D : Type) : Type := { data : D }.
Arguments data {D} _.

(** What a [catch] clause can receive: an [Error] with its [message], and
    for an axios failure that got an HTTP answer, the [response] whose
    body may or may not be there. A plain [new Error(msg)] has no
    [response] property. *)
Record JSError : Type := {
  error_message : string;
  error_response : option (AxiosResponse (option ZCashRPCResponse));
}.

Definition new_Error (msg : string) : JSError :=
  {| error_message := msg; error_response := None |}.

(** How the promise returned by [client.post] settles. *)
Inductive Settled : Type :=
| Resolved (response : AxiosResponse ZCashRPCResponse)
| Rejected (error : JSError).

(** The remote node answers a request knowing everything it was sent
    before; [sent] records the envelopes handed to [post], oldest first. *)
Record AxiosInstance : Type := {
  remote : list ZCashRPCRequest -> ZCashRPCRequest -> Settled;
  sent : list ZCashRPCRequest;
}.

Definition post (client : AxiosInstance) (request : ZCashRPCRequest)
  : Settled * AxiosInstance :=
  (remote client (sent client) request,
   {| remote := remote client; sent := sent client ++ [request] |}).

(** ** Promises that may reject, over the state of the service object *)

Inductive completion (A : Type) : Type :=
| Normal (a : A)
| Throw (e : JSError).
Arguments Normal {A} _.
Arguments Throw {A} _.

(** ** [src/services/zcash.service.ts] *)

Module ZCashService.

(** The two private fields of the class. *)
Record state : Type := {
  client : AxiosInstance;
  requestId : Z;
}.

(** [new ZCashService()], talking to a given node. *)
Definition create (node : list ZCashRPCRequest -> ZCashRPCRequest -> Settled)
  : state :=
  {| client := {| remote := node; sent := [] |}; requestId := 0 |}.

Definition Async (A : Type) : Type := state -> completion A * state.

Definition ret {A} (a : A) : Async A := fun this => (Normal a, this).

Definition bind {A B} (m : Async A) (k : A -> Async B) : Async B :=
  fun this =>
    match m this with
    | (Normal a, this') => k a this'
    | (Throw e, this') => (Throw e, this')
    end.

(** The body of the [try] block of [rpcCall], once [post] has settled. *)
Definition rpcCall_try (settled : Settled) : completion value :=
  match settled with
  | Resolved response =>
      match error (data response) with
      | Some e =>
          Throw (new_Error ("RPC Error: " +:+ message e
                            +:+ " (Code: " +:+ pretty (code e) +:+ ")"))
      | None => Normal (result (data response))
      end
  | Rejected err => Throw err
  end.

(** [error.response.data?.error?.message]. *)
Definition response_error_message
  (response : AxiosResponse (option ZCashRPCResponse)) : option string :=
  match data response with
  | Some body =>
      match error body with
      | Some e => Some (message e)
      | None => None
      end
  | None => None
  end.

(** The [catch] clause of [rpcCall]: it receives whatever the [try] block
    threw, the error thrown for a non-null [error] field included. *)
Definition rpcCall_catch (err : JSError) : JSError :=
  match error_response err with
  | Some response =>
      new_Error ("ZCash RPC Error: "
                 +:+ or_string (response_error_message response)
                               (error_message err))
  | None => new_Error ("Network Error: " +:+ error_message err)
  end.

Definition rpcCall (method : string) (params : list value) : Async value :=
  fun this =>
    let this := {| client := client this; requestId := requestId this + 1 |} in
    let request :=
      {| jsonrpc := "2.0"; id := requestId this;
         method := method; params := params |} in
    let '(settled, client') := post (client this) request in
    let this := {| client := client'; requestId := requestId this |} in
    match rpcCall_try settled with
    | Normal r => (Normal r, this)
    | Throw err => (Throw (rpcCall_catch err), this)
    end.

(** A default parameter value applies when the argument is [undefined]. *)
Definition number_arg (default_value : Z) (arg : option number) : value :=
  VNumber (default (int default_value) arg).

Definition string_arg (default_value : string) (arg : value) : value :=
  match arg with
  | VUndefined => VString default_value
  | _ => arg
  end.

Definition getBlockchainInfo : Async value :=
  rpcCall "getblockchaininfo" [].

Definition getWalletInfo : Async value :=
  rpcCall "getwalletinfo" [].

Definition getBalance (minConfirmations : option number) : Async value :=
  rpcCall "getbalance" [VString "*"; number_arg 1 minConfirmations].

Definition getNewAddress (account : value) : Async value :=
  rpcCall "getnewaddress" [string_arg "" account].

Definition getTransaction (txid : string) : Async value :=
  rpcCall "gettransaction" [VString txid].

Definition listTransactions (count skip : option number) : Async value :=
  rpcCall "listtransactions"
    [VString "*"; number_arg 10 count; number_arg 0 skip].

Definition sendToAddress (address amount comment : value) : Async value :=
  rpcCall "sendtoaddress" [address; amount; string_arg "" comment].

Definition validateAddress (address : string) : Async value :=
  rpcCall "validateaddress" [VString address].

Definition getBlock (blockhash : string) (verbosity : option number)
  : Async value :=
  rpcCall "getblock" [VString blockhash; number_arg 1 verbosity].

Definition getBlockCount : Async value :=
  rpcCall "getblockcount" [].

Definition getBlockHash (height : number) : Async value :=
  rpcCall "getblockhash" [VNumber height].

Definition getNetworkInfo : Async value :=
  rpcCall "getnetworkinfo" [].

Definition getMiningInfo : Async value :=
  rpcCall "getmininginfo" [].

Definition listUnspent (minConfirmations maxConfirmations : option number)
  : Async value :=
  rpcCall "listunspent"
    [number_arg 1 minConfirmations; number_arg 9999999 maxConfirmations].

Definition getRawTransaction (txid : string) (verbose : option bool)
  : Async value :=
  rpcCall "getrawtransaction"
    [VString txid; VNumber (if default false verbose then int 1 else int 0)].

Definition estimateFee (nblocks : option number) : Async value :=
  rpcCall "estimatefee" [number_arg 6 nblocks].

Definition getConnectionCount : Async value :=
  rpcCall "getconnectioncount" [].

End ZCashService.

(** ** The part of Express the handlers use *)

Module Express.

(** [req.params] and [req.query] hold strings ([as string] in the source),
    [req.body] is a parsed JSON object. A property that is not there reads
    as [undefined]. *)
Record Request : Type := {
  params : gmap string string;
  query : gmap string string;
  body : gmap string value;
}.

(** Reading a property of the body: [undefined] when it is not there. *)
Definition prop (o : gmap string value) (name : string) : value :=
  default VUndefined (o !! name).

(** What a handler does with [res] and [next]: it either sends one JSON
    response with a status, or forwards an error to [next]. *)
Inductive Outcome : Type :=
| Json (status : Z) (payload : value)
| Next (error : JSError).

End Express.
Import Express(Request, Outcome, Json, Next, prop, query, body).

(** ** [src/controllers/zcash.controller.ts] *)

Module ZCashController.

Import Express(params).
Import ZCashService(Async, ret, bind).

Notation "'await' x <- m ; k" := (bind m (fun x => k))
  (at level 10, x name, m at level 100, k at level 200,
   format "'[v' 'await'  x  <-  m ; '/' k ']'").

Definition Handler : Type :=
  ZCashService.state -> Outcome * ZCashService.state.

(** [res.json(payload)]: the status stays at its default, 200. *)
Definition res_json (payload : value) : Async Outcome :=
  ret (Json 200 payload).

(** [res.status(status).json(payload)]. *)
Definition res_status_json (status : Z) (payload : value) : Async Outcome :=
  ret (Json status payload).

(** [try { ... } catch (error) { next(error); }] around a handler body. *)
Definition try_catch_next (attempt : Async Outcome) : Handler :=
  fun service =>
    match attempt service with
    | (Normal outcome, service') => (outcome, service')
    | (Throw error, service') => (Next error, service')
    end.

(** The two object literals every handler builds. *)
Definition success (data : value) : value :=
  VObject [("success", VBool true); ("data", data)].

Definition failure (error : string) : value :=
  VObject [("success", VBool false); ("error", VString error)].

Definition getBlockchainInfo (req : Request) : Handler :=
  try_catch_next (
    await data <- ZCashService.getBlockchainInfo;
    res_json (success data)).

Definition getWalletInfo (req : Request) : Handler :=
  try_catch_next (
    await data <- ZCashService.getWalletInfo;
    res_json (success data)).

Definition getBalance (req : Request) : Handler :=
  try_catch_next (
    let minConfirmations :=
      or_number (parseInt (query req !! "minConfirmations")) (int 1) in
    await balance <- ZCashService.getBalance (Some minConfirmations);
    res_json (success (VObject [("balance", balance);
                                ("minConfirmations",
                                 VNumber minConfirmations)]))).

Definition getNewAddress (req : Request) : Handler :=
  try_catch_next (
    let account := or_value (prop (body req) "account") (VString "") in
    await address <- ZCashService.getNewAddress account;
    res_json (success (VObject [("address", address)]))).

Definition getTransaction (req : Request) : Handler :=
  try_catch_next (
    match params req !! "txid" with
    | Some (String _ _ as txid) =>
        await transaction <- ZCashService.getTransaction txid;
        res_json (success transaction)
    | _ => res_status_json 400 (failure "Transaction ID is required")
    end).

Definition listTransactions (req : Request) : Handler :=
  try_catch_next (
    let count := or_number (parseInt (query req !! "count")) (int 10) in
    let skip := or_number (parseInt (query req !! "skip")) (int 0) in
    await transactions <-
      ZCashService.listTransactions (Some count) (Some skip);
    res_json (success transactions)).

Definition sendToAddress (req : Request) : Handler :=
  try_catch_next (
    let address := prop (body req) "address" in
    let amount := prop (body req) "amount" in
    let comment := prop (body req) "comment" in
    if negb (truthy address) || negb (truthy amount)
    then res_status_json 400 (failure "Address and amount are required")
    else
      await txid <- ZCashService.sendToAddress address amount comment;
      res_json (success (VObject [("txid", txid)]))).

Definition validateAddress (req : Request) : Handler :=
  try_catch_next (
    match params req !! "address" with
    | Some (String _ _ as address) =>
        await validation <- ZCashService.validateAddress address;
        res_json (success validation)
    | _ => res_status_json 400 (failure "Address is required")
    end).

Definition getBlock (req : Request) : Handler :=
  try_catch_next (
    let verbosity := or_number (parseInt (query req !! "verbosity")) (int 1) in
    match params req !! "blockhash" with
    | Some (String _ _ as blockhash) =>
        await block <- ZCashService.getBlock blockhash (Some verbosity);
        res_json (success block)
    | _ => res_status_json 400 (failure "Block hash is required")
    end).

Definition getBlockCount (req : Request) : Handler :=
  try_catch_next (
    await blockCount <- ZCashService.getBlockCount;
    res_json (success (VObject [("blockCount", blockCount)]))).

Definition getBlockHash (req : Request) : Handler :=
  try_catch_next (
    let height := parseInt (params req !! "height") in
    if isNaN height
    then res_status_json 400 (failure "Valid block height is required")
    else
      await blockhash <- ZCashService.getBlockHash height;
      res_json (success (VObject [("height", VNumber height);
                                  ("blockhash", blockhash)]))).

Definition getNetworkInfo (req : Request) : Handler :=
  try_catch_next (
    await networkInfo <- ZCashService.getNetworkInfo;
    res_json (success networkInfo)).

Definition getMiningInfo (req : Request) : Handler :=
  try_catch_next (
    await miningInfo <- ZCashService.getMiningInfo;
    res_json (success miningInfo)).

Definition listUnspent (req : Request) : Handler :=
  try_catch_next (
    let minConfirmations :=
      or_number (parseInt (query req !! "minConfirmations")) (int 1) in
    let maxConfirmations :=
      or_number (parseInt (query req !! "maxConfirmations")) (int 9999999) in
    await unspent <-
      ZCashService.listUnspent (Some minConfirmations) (Some maxConfirmations);
    res_json (success unspent)).

Definition getRawTransaction (req : Request) : Handler :=
  try_catch_next (
    let verbose := bool_decide (query req !! "verbose" = Some "true") in
    match params req !! "txid" with
    | Some (String _ _ as txid) =>
        await rawTx <- ZCashService.getRawTransaction txid (Some verbose);
        res_json (success rawTx)
    | _ => res_status_json 400 (failure "Transaction ID is required")
    end).

Definition estimateFee (req : Request) : Handler :=
  try_catch_next (
    let nblocks := or_number (parseInt (query req !! "nblocks")) (int 6) in
    await fee <- ZCashService.estimateFee (Some nblocks);
    res_json (success (VObject [("fee", fee); ("nblocks", VNumber nblocks)]))).

Definition getConnectionCount (req : Request) : Handler :=
  try_catch_next (
    await connections <- ZCashService.getConnectionCount;
    res_json (success (VObject [("connections", connections)]))).

End ZCashController.

(** ** [parseInt(string, radix)] (ECMA-262, 19.2.5) *)

(** [parseInt] with its second argument, an integer: 0 is as good as no
    radix, a radix outside 2..36 gives [NaN], and only radix 16 (or none)
    lets a [0x] prefix through. As for [parseInt], the result is exact,
    where the real function rounds beyond a magnitude of 2^53. *)
Definition parseInt_radix (input : option string) (radix : Z) : number :=
  let inputString := default "undefined" input in
  let '(sign, unsigned) := splitSign (trimStart inputString) in
  if (radix =? 0)%Z then
    let '(R, digits) := splitRadix unsigned in
    match parseDigits R None digits with
    | None => NaN
    | Some mathInt => int (sign * mathInt)
    end
  else if ((radix <? 2) || (36 <? radix))%Z then NaN
  else
    let digits :=
      if (radix =? 16)%Z then snd (splitRadix unsigned) else unsigned in
    match parseDigits radix None digits with
    | None => NaN
    | Some mathInt => int (sign * mathInt)
    end.

(** ** [src/config/config.ts] *)

Module Config.

Record ZcashConfig : Type := {
  rpcUrl : string;
  apiKey : string;
}.

Record Config : Type := {
  port : number;
  nodeEnv : string;
  zcash : ZcashConfig;
  inboundApiKey : string;
}.

(** The configuration read from [process.env] (after [dotenv] has filled
    it in); [inboundApiKey] is the top-level [apiKey] of the source. *)
Definition config (env : gmap string string) : Config :=
  {| port := parseInt_radix (Some (or_string (env !! "PORT") "3000")) 10;
     nodeEnv := or_string (env !! "NODE_ENV") "development";
     zcash :=
       {| rpcUrl := or_string (env !! "ZCASH_RPC_URL")
                      "https://zcash-mainnet.gateway.tatum.io/";
          apiKey := or_string (env !! "ZCASH_API_KEY") "" |};
     inboundApiKey := or_string (env !! "API_KEY") "" |}.

End Config.

(** ** Express routing, as far as the route table uses it *)

Module Routing.

Inductive Method : Type :=
| GET
| POST.

(** A piece of a route path: fixed text, or a parameter [:name]. *)
Inductive Piece : Type :=
| Literal (text : string)
| Named (name : string).

(** The pieces of a path between its slashes; ["/a/b"] gives
    [[""; "a"; "b"]]. *)
Fixpoint pieces_of (path : string) : list string :=
  match path with
  | EmptyString => [""]
  | String "/" rest => "" :: pieces_of rest
  | String c rest =>
      match pieces_of rest with
      | piece :: pieces => String c piece :: pieces
      | [] => [String c ""]
      end
  end.

(** The pattern of a route path such as ["/transaction/:txid/raw"]. *)
Definition compile (path : string) : list Piece :=
  (fun piece =>
     match piece with
     | String ":" name => Named name
     | _ => Literal piece
     end) <$> tail (pieces_of path).

(** One trailing slash is allowed (routing is not strict). *)
Fixpoint drop_trailing_slash (pieces : list string) : list string :=
  match pieces with
  | [] => []
  | [""] => []
  | piece :: rest => piece :: drop_trailing_slash rest
  end.

(** The segments of the path of a request; a path starts with a slash. *)
Definition segments (path : string) : option (list string) :=
  match pieces_of path with
  | "" :: pieces => Some (drop_trailing_slash pieces)
  | _ => None
  end.

(** Fixed text is compared without regard to the case of ASCII letters
    (routing is not case sensitive). *)
Definition lower (c : ascii) : ascii :=
  let n := N_of_ascii c in
  if ((65 <=? n) && (n <=? 90))%N then ascii_of_N (n + 32) else c.

Fixpoint same_text (a b : string) : bool :=
  match a, b with
  | EmptyString, EmptyString => true
  | String x a', String y b' =>
      if Ascii.eqb (lower x) (lower y) then same_text a' b' else false
  | _, _ => false
  end.

(** Matching the segments of a path against a pattern: a parameter takes
    one whole segment, which must not be empty. The values are the raw
    ones, still to be decoded. *)
Fixpoint match_pieces (pattern : list Piece) (segs : list string)
  : option (list (string * string)) :=
  match pattern, segs with
  | [], [] => Some []
  | Literal text :: pattern', seg :: segs' =>
      if same_text text seg then match_pieces pattern' segs' else None
  | Named name :: pattern', seg :: segs' =>
      match seg with
      | EmptyString => None
      | String _ _ =>
          match match_pieces pattern' segs' with
          | Some raw => Some ((name, seg) :: raw)
          | None => None
          end
      end
  | _, _ => None
  end.

Definition match_path (pattern : list Piece) (path : string)
  : option (list (string * string)) :=
  match segments path with
  | Some segs => match_pieces pattern segs
  | None => None
  end.

End Routing.

(** ** [src/routes/zcash.routes.ts] *)

Module Routes.

Import Routing.

Record Route : Type := {
  method : Method;
  path : string;
  handler : Express.Request -> ZCashController.Handler;
}.

(** The route table, in the order of the source. *)
Definition router : list Route :=
  [ {| method := GET; path := "/blockchain/info";
       handler := ZCashController.getBlockchainInfo |};
    {| method := GET; path := "/blockchain/blockcount";
       handler := ZCashController.getBlockCount |};
    {| method := GET; path := "/blockchain/blockhash/:height";
       handler := ZCashController.getBlockHash |};
    {| method := GET; path := "/blockchain/block/:blockhash";
       handler := ZCashController.getBlock |};
    {| method := GET; path := "/wallet/info";
       handler := ZCashController.getWalletInfo |};
    {| method := GET; path := "/wallet/balance";
       handler := ZCashController.getBalance |};
    {| method := POST; path := "/wallet/newaddress";
       handler := ZCashController.getNewAddress |};
    {| method := GET; path := "/wallet/unspent";
       handler := ZCashController.listUnspent |};
    {| method := GET; path := "/transaction/:txid";
       handler := ZCashController.getTransaction |};
    {| method := GET; path := "/transactions";
       handler := ZCashController.listTransactions |};
    {| method := GET; path := "/transaction/:txid/raw";
       handler := ZCashController.getRawTransaction |};
    {| method := POST; path := "/transaction/send";
       handler := ZCashController.sendToAddress |};
    {| method := GET; path := "/address/validate/:address";
       handler := ZCashController.validateAddress |};
    {| method := GET; path := "/network/info";
       handler := ZCashController.getNetworkInfo |};
    {| method := GET; path := "/network/connections";
       handler := ZCashController.getConnectionCount |};
    {| method := GET; path := "/mining/info";
       handler := ZCashController.getMiningInfo |};
    {| method := GET; path := "/fee/estimate";
       handler := ZCashController.estimateFee |} ].

(** A request as it reaches the router: the path is the one below the
    mount point, without the query string. *)
Record Incoming : Type := {
  in_method : Method;
  in_path : string;
  in_query : gmap string string;
  in_body : gmap string value;
}.

Definition method_eqb (a b : Method) : bool :=
  match a, b with
  | GET, GET | POST, POST => true
  | _, _ => false
  end.

(** The first route of a table that matches, with the raw values of its
    parameters. *)
Fixpoint find_route (routes : list Route) (incoming : Incoming)
  : option (Route * list (string * string)) :=
  match routes with
  | [] => None
  | route :: rest =>
      if method_eqb (method route) (in_method incoming) then
        match match_path (compile (path route)) (in_path incoming) with
        | Some raw => Some (route, raw)
        | None => find_route rest incoming
        end
      else find_route rest incoming
  end.

Section Dispatch.

(** Two functions of the deployment are not part of these sources: the
    middleware [authenticateApiKey], which either ends the request itself
    or calls [next()], here [None]; and [decodeURIComponent], which
    Express applies to the value of each path parameter and which fails on
    a malformed escape. *)
Variable authenticateApiKey : Incoming -> option Express.Outcome.
Variable decodeURIComponent : string -> option string.

(** Decoding the parameters of a matched route; the first value that
    cannot be decoded is reported. *)
Fixpoint decode_params (raw : list (string * string))
  : string + gmap string string :=
  match raw with
  | [] => inr ∅
  | (name, text) :: rest =>
      match decodeURIComponent text with
      | None => inl text
      | Some decoded =>
          match decode_params rest with
          | inl bad => inl bad
          | inr params => inr (<[name := decoded]> params)
          end
      end
  end.

(** [router.use(authenticateApiKey)] followed by the routes: [None] when
    the request leaves the router without an answer. *)
Definition dispatch (incoming : Incoming)
  : ZCashService.state -> option Express.Outcome * ZCashService.state :=
  fun service =>
    match authenticateApiKey incoming with
    | Some outcome => (Some outcome, service)
    | None =>
        match find_route router incoming with
        | None => (None, service)
        | Some (route, raw) =>
            match decode_params raw with
            | inl bad =>
                (Some (Express.Next
                         (new_Error ("Failed to decode param '" +:+ bad
                                     +:+ "'"))),
                 service)
            | inr params =>
                let '(outcome, service') :=
                  handler route
                    {| Express.params := params;
                       Express.query := in_query incoming;
                       Express.body := in_body incoming |} service in
                (Some outcome, service')
            end
        end
    end.

End Dispatch.

End Routes.

(** * The vocabulary of the properties *)

Import ZCashService(state, client, requestId, create, rpcCall,
                    rpcCall_try, rpcCall_catch).
Import ZCashController(Handler, success, failure).

(** ** Calls *)

(** The envelope [rpcCall] builds in a given state of the service. *)
Definition envelope (this : state) (method : string) (params : list value)
  : ZCashRPCRequest :=
  {| jsonrpc := "2.0"; id := requestId this + 1;
     method := method; params := params |}.

(** The answer of the remote node to that envelope. *)
Definition answer (this : state) (method : string) (params : list value)
  : Settled :=
  remote (client this) (sent (client this)) (envelope this method params).

(** The state of the service after one more call. *)
Definition after_call (this : state) (method : string) (params : list value)
  : state :=
  {| client := {| remote := remote (client this);
                  sent := sent (client this) ++ [envelope this method params] |};
     requestId := requestId this + 1 |}.

(** What a handler makes of one call: the response built from the result,
    or the failure handed to [next]. *)
Definition respond (called : completion value * state)
  (reshape : value -> value) : Outcome * state :=
  match called with
  | (Normal r, service') => (Json 200 (success (reshape r)), service')
  | (Throw err, service') => (Next err, service')
  end.

(** ** Failure kinds *)

(** The three message tags of [rpcCall] are the only thing that tells its
    failures apart: all of them are plain [Error] objects. *)
Inductive FailureKind : Type :=
| NetworkFailure
| RPCFailure
| ZCashRPCFailure.

Definition failure_kind (e : JSError) : option FailureKind :=
  if String.prefix "Network Error: " (error_message e)
  then Some NetworkFailure
  else if String.prefix "RPC Error: " (error_message e)
  then Some RPCFailure
  else if String.prefix "ZCash RPC Error: " (error_message e)
  then Some ZCashRPCFailure
  else None.

(** ** Process lifetimes *)

(** A process lifetime, seen from the RPC client: the calls made, in the
    order in which their envelopes are built. *)
Fixpoint run_calls (calls : list (string * list value)) (this : state)
  : state :=
  match calls with
  | [] => this
  | (method, params) :: rest =>
      run_calls rest (snd (rpcCall method params this))
  end.

(** The ids of the envelopes sent so far, oldest first. *)
Definition ids_sent (this : state) : list Z := id <$> sent (client this).

(** The invariant of the counter: the ids sent so far increase strictly
    and none exceeds [requestId]. *)
Definition counter_ahead (this : state) : Prop :=
  StronglySorted Z.lt (ids_sent this)
  /\ Forall (fun i => i <= requestId this) (ids_sent this).

(** ** Required fields *)

(** The required fields of the interface, each with the handler that
    checks it and what its absence is. *)
Inductive RequiredField : Type :=
| SendAddress
| SendAmount
| TransactionTxid
| RawTransactionTxid
| ValidateAddress
| BlockHash.

Definition checking_handler (field : RequiredField) : Request -> Handler :=
  match field with
  | SendAddress | SendAmount => ZCashController.sendToAddress
  | TransactionTxid => ZCashController.getTransaction
  | RawTransactionTxid => ZCashController.getRawTransaction
  | ValidateAddress => ZCashController.validateAddress
  | BlockHash => ZCashController.getBlock
  end.

Definition absent (field : RequiredField) (req : Request) : Prop :=
  match field with
  | SendAddress => body req !! "address" = None
  | SendAmount => body req !! "amount" = None
  | TransactionTxid | RawTransactionTxid => Express.params req !! "txid" = None
  | ValidateAddress => Express.params req !! "address" = None
  | BlockHash => Express.params req !! "blockhash" = None
  end.

(** ** Optional numeric parameters *)

(** The optional numeric query parameters of the interface. *)
Inductive OptionalParam : Type :=
| BalanceMinConfirmations
| UnspentMinConfirmations
| UnspentMaxConfirmations
| TransactionsCount
| TransactionsSkip
| FeeNblocks
| BlockVerbosity.

Definition param_name (p : OptionalParam) : string :=
  match p with
  | BalanceMinConfirmations | UnspentMinConfirmations => "minConfirmations"
  | UnspentMaxConfirmations => "maxConfirmations"
  | TransactionsCount => "count"
  | TransactionsSkip => "skip"
  | FeeNblocks => "nblocks"
  | BlockVerbosity => "verbosity"
  end.

(** The defaults of section 6 of the specification. *)
Definition documented_default (p : OptionalParam) : Z :=
  match p with
  | BalanceMinConfirmations | UnspentMinConfirmations => 1
  | UnspentMaxConfirmations => 9999999
  | TransactionsCount => 10
  | TransactionsSkip => 0
  | FeeNblocks => 6
  | BlockVerbosity => 1
  end.

Definition param_handler (p : OptionalParam) : Request -> Handler :=
  match p with
  | BalanceMinConfirmations => ZCashController.getBalance
  | UnspentMinConfirmations | UnspentMaxConfirmations =>
      ZCashController.listUnspent
  | TransactionsCount | TransactionsSkip => ZCashController.listTransactions
  | FeeNblocks => ZCashController.estimateFee
  | BlockVerbosity => ZCashController.getBlock
  end.

(** The RPC method the handler calls and the place of the parameter in
    its argument list. *)
Definition rpc_method (p : OptionalParam) : string :=
  match p with
  | BalanceMinConfirmations => "getbalance"
  | UnspentMinConfirmations | UnspentMaxConfirmations => "listunspent"
  | TransactionsCount | TransactionsSkip => "listtransactions"
  | FeeNblocks => "estimatefee"
  | BlockVerbosity => "getblock"
  end.

Definition rpc_position (p : OptionalParam) : nat :=
  match p with
  | BalanceMinConfirmations => 1
  | UnspentMinConfirmations => 0
  | UnspentMaxConfirmations => 1
  | TransactionsCount => 1
  | TransactionsSkip => 2
  | FeeNblocks => 0
  | BlockVerbosity => 1
  end%nat.

(** The field of the response data in which the handler echoes the
    parameter, if it does. *)
Definition echo_field (p : OptionalParam) : option string :=
  match p with
  | BalanceMinConfirmations => Some "minConfirmations"
  | FeeNblocks => Some "nblocks"
  | _ => None
  end.

(** The required field of the same handler is there: only
    [blockchain/block] has one, the block hash of its path. *)
Definition required_present (p : OptionalParam) (req : Request) : Prop :=
  match p with
  | BlockVerbosity => opt_truthy (Express.params req !! "blockhash") = true
  | _ => True
  end.

(** The same request with the parameter given as [text]. *)
Definition supply (p : OptionalParam) (text : string) (req : Request)
  : Request :=
  {| Express.params := Express.params req;
     query := <[param_name p := text]> (query req);
     body := body req |}.

(** Reading a field of a JSON object. *)
Fixpoint assoc (fields : list (string * value)) (name : string)
  : option value :=
  match fields with
  | [] => None
  | (key, v) :: rest => if String.eqb key name then Some v else assoc rest name
  end.

Definition field (name : string) (v : value) : option value :=
  match v with
  | VObject fields => assoc fields name
  | _ => None
  end.

(** The value the handler settles on for the parameter. *)
Definition chosen (p : OptionalParam) (req : Request) : number :=
  or_number (parseInt (query req !! param_name p))
            (int (documented_default p)).

(** The handler of [p] sends one envelope, for the method of [p], with
    [n] in the place of the parameter. *)
Definition calls_with (p : OptionalParam) (n : number) (req : Request)
  (service : state) : Prop :=
  exists request,
    sent (client (snd (param_handler p req service)))
    = sent (client service) ++ [request]
    /\ method request = rpc_method p
    /\ params request !! rpc_position p = Some (VNumber n).


(** The text of the documented default, as a caller would write it. *)
Definition default_text (p : OptionalParam) : string :=
  pretty (documented_default p).

(** ** Endpoints *)

Inductive Endpoint : Type :=
| BlockchainInfo
| WalletInfo
| WalletBalance
| WalletNewAddress
| Transaction
| Transactions
| TransactionSend
| AddressValidate
| BlockchainBlock
| BlockchainBlockCount
| BlockchainBlockHash
| NetworkInfo
| MiningInfo
| WalletUnspent
| TransactionRaw
| FeeEstimate
| NetworkConnections.

Definition endpoint_handler (e : Endpoint) : Request -> Handler :=
  match e with
  | BlockchainInfo => ZCashController.getBlockchainInfo
  | WalletInfo => ZCashController.getWalletInfo
  | WalletBalance => ZCashController.getBalance
  | WalletNewAddress => ZCashController.getNewAddress
  | Transaction => ZCashController.getTransaction
  | Transactions => ZCashController.listTransactions
  | TransactionSend => ZCashController.sendToAddress
  | AddressValidate => ZCashController.validateAddress
  | BlockchainBlock => ZCashController.getBlock
  | BlockchainBlockCount => ZCashController.getBlockCount
  | BlockchainBlockHash => ZCashController.getBlockHash
  | NetworkInfo => ZCashController.getNetworkInfo
  | MiningInfo => ZCashController.getMiningInfo
  | WalletUnspent => ZCashController.listUnspent
  | TransactionRaw => ZCashController.getRawTransaction
  | FeeEstimate => ZCashController.estimateFee
  | NetworkConnections => ZCashController.getConnectionCount
  end.

(** The RPC methods of section 6, by endpoint. *)
Definition endpoint_method (e : Endpoint) : string :=
  match e with
  | BlockchainInfo => "getblockchaininfo"
  | WalletInfo => "getwalletinfo"
  | WalletBalance => "getbalance"
  | WalletNewAddress => "getnewaddress"
  | Transaction => "gettransaction"
  | Transactions => "listtransactions"
  | TransactionSend => "sendtoaddress"
  | AddressValidate => "validateaddress"
  | BlockchainBlock => "getblock"
  | BlockchainBlockCount => "getblockcount"
  | BlockchainBlockHash => "getblockhash"
  | NetworkInfo => "getnetworkinfo"
  | MiningInfo => "getmininginfo"
  | WalletUnspent => "listunspent"
  | TransactionRaw => "getrawtransaction"
  | FeeEstimate => "estimatefee"
  | NetworkConnections => "getconnectioncount"
  end.

(** The data of a successful response: the RPC result as it is, or put
    in a small object next to the echoed parameter. *)
Definition reshaped (e : Endpoint) (req : Request) (r : value) : value :=
  match e with
  | WalletBalance =>
      VObject [("balance", r);
               ("minConfirmations",
                VNumber (chosen BalanceMinConfirmations req))]
  | WalletNewAddress => VObject [("address", r)]
  | TransactionSend => VObject [("txid", r)]
  | BlockchainBlockCount => VObject [("blockCount", r)]
  | BlockchainBlockHash =>
      VObject [("height", VNumber (parseInt (Express.params req !! "height")));
               ("blockhash", r)]
  | FeeEstimate =>
      VObject [("fee", r); ("nblocks", VNumber (chosen FeeNblocks req))]
  | NetworkConnections => VObject [("connections", r)]
  | _ => r
  end.

(** ** Nodes, services and requests to run the handlers on *)

(** A node that rejects every request with one JSON-RPC error. *)
Definition rejecting_node (e : RPCError)
  : list ZCashRPCRequest -> ZCashRPCRequest -> Settled :=
  fun _ request =>
    Resolved {| data := {| result := VNull; error := Some e;
                           echoed_id := id request |} |}.

(** A node that cannot be reached. *)
Definition unreachable_node (cause : string)
  : list ZCashRPCRequest -> ZCashRPCRequest -> Settled :=
  fun _ _ => Rejected (new_Error cause).

(** A node that answers every request with the same result. *)
Definition answering_node (r : value)
  : list ZCashRPCRequest -> ZCashRPCRequest -> Settled :=
  fun _ request =>
    Resolved {| data := {| result := r; error := None;
                           echoed_id := id request |} |}.

(** The outcome of [rpcCall('validateaddress', ['t1abc'])] on a fresh
    service whose node answers with the error -5, "Invalid address". *)
Definition invalid_address_failure : completion value :=
  fst (rpcCall "validateaddress" [VString "t1abc"]
         (create (rejecting_node
                    {| code := -5; message := "Invalid address" |}))).

(** A fresh service in front of a wallet that holds 5. *)
Definition wallet_service : state :=
  create (answering_node (VNumber (int 5))).

(** A fresh service in front of a wallet without transactions. *)
Definition empty_wallet_service : state :=
  create (answering_node (VArray [])).

(** A fresh service in front of a node that knows one block hash. *)
Definition chain_service : state :=
  create (answering_node (VString "00040fe8")).

(** A request with no path, query or body parameter at all. *)
Definition plain_request : Request :=
  {| Express.params := ∅; query := ∅; body := ∅ |}.

(** A send request with an amount and no address. *)
Definition bare_send_request : Request :=
  {| Express.params := ∅; query := ∅;
     body := {[ "amount" := VNumber (int 1) ]} |}.

(** [GET /transactions?count=ten]. *)
Definition garbled_count_request : Request :=
  {| Express.params := ∅; query := {[ "count" := "ten" ]}; body := ∅ |}.


(** [GET /blockchain/blockhash/<segment>]. *)
Definition height_request (segment : string) : Request :=
  {| Express.params := {[ "height" := segment ]}; query := ∅; body := ∅ |}.

(** The send request of the integration test: [{address: "", amount: 0}]. *)
Definition empty_send_request : Request :=
  {| Express.params := ∅; query := ∅;
     body := {[ "address" := VString ""; "amount" := VNumber (int 0) ]} |}.

(** [GET /transaction/ab12/raw], with or without [?verbose=<text>]. *)
Definition raw_request (verbose : option string) : Request :=
  {| Express.params := {[ "txid" := "ab12" ]};
     query := match verbose with
              | Some text => {[ "verbose" := text ]}
              | None => ∅
              end;
     body := ∅ |}.

(** The second argument of the [getrawtransaction] call made for a
    request, on a fresh service. *)
Definition verbose_argument (req : Request) : option value :=
  last (sent (client (snd (ZCashController.getRawTransaction req
                             chain_service))))
  ≫= fun request => params request !! 1%nat.

(** ** Unfolding the handlers *)

Ltac unfold_handlers :=
  unfold ZCashController.getBlockchainInfo, ZCashController.getWalletInfo,
    ZCashController.getBalance, ZCashController.getNewAddress,
    ZCashController.getTransaction, ZCashController.listTransactions,
    ZCashController.sendToAddress, ZCashController.validateAddress,
    ZCashController.getBlock, ZCashController.getBlockCount,
    ZCashController.getBlockHash, ZCashController.getNetworkInfo,
    ZCashController.getMiningInfo, ZCashController.listUnspent,
    ZCashController.getRawTransaction, ZCashController.estimateFee,
    ZCashController.getConnectionCount,
    ZCashService.getBlockchainInfo, ZCashService.getWalletInfo,
    ZCashService.getBalance, ZCashService.getNewAddress,
    ZCashService.getTransaction, ZCashService.listTransactions,
    ZCashService.sendToAddress, ZCashService.validateAddress,
    ZCashService.getBlock, ZCashService.getBlockCount,
    ZCashService.getBlockHash, ZCashService.getNetworkInfo,
    ZCashService.getMiningInfo, ZCashService.listUnspent,
    ZCashService.getRawTransaction, ZCashService.estimateFee,
    ZCashService.getConnectionCount,
    ZCashService.number_arg.

(** ** The shape of a text *)

(** The first character of a text, if it has one, satisfies [p]. *)
Definition startsWith (p : ascii -> bool) (s : string) : bool :=
  match s with
  | EmptyString => false
  | String c _ => p c
  end.

(** The characters [0] to [9]. *)
Definition decimalDigit (c : ascii) : bool :=
  let n := Z.of_N (N_of_ascii c) in ((48 <=? n) && (n <=? 57))%Z.

(** The characters [1] to [9]. *)
Definition nonzeroDigit (c : ascii) : bool :=
  let n := Z.of_N (N_of_ascii c) in ((49 <=? n) && (n <=? 57))%Z.

(** The characters [x] and [X], which after a [0] announce hexadecimal. *)
Definition hexMarker (c : ascii) : bool :=
  match c with
  | "x"%char | "X"%char => true
  | _ => false
  end.

(** A text that [trimStart] removes entirely. *)
Definition blank (s : string) : Prop := trimStart s = "".

(** The integers a double holds exactly and unambiguously
    ([Number.isSafeInteger]): on these [parseInt] does not round. *)
Definition safe_integer (n : Z) : Prop := Z.abs n <= 9007199254740991.

(** ** Sequences of handled requests *)

(** Requests handled one after the other, each by the handler of its
    endpoint. *)
Fixpoint serve (requests : list (Endpoint * Request)) (service : state)
  : list Outcome * state :=
  match requests with
  | [] => ([], service)
  | (e, req) :: rest =>
      let '(outcome, service') := endpoint_handler e req service in
      let '(outcomes, final) := serve rest service' in
      (outcome :: outcomes, final)
  end.

(** An answer with status 400. *)
Definition refused (outcome : Outcome) : bool :=
  match outcome with
  | Json 400 _ => true
  | _ => false
  end.

(** ** Route tables *)

(** Two patterns that some path may both match: the same number of
    pieces, and the same text wherever both have fixed text. *)
Fixpoint overlap (p q : list Routing.Piece) : bool :=
  match p, q with
  | [], [] => true
  | Routing.Literal a :: p', Routing.Literal b :: q' =>
      Routing.same_text a b && overlap p' q'
  | _ :: p', _ :: q' => overlap p' q'
  | _, _ => false
  end.

(** Two routes that some request may both match. *)
Definition rivals (a b : Routes.Route) : bool :=
  Routes.method_eqb (Routes.method a) (Routes.method b)
  && overlap (Routing.compile (Routes.path a))
             (Routing.compile (Routes.path b)).

(** A route matches a request. *)
Definition route_matches (route : Routes.Route) (incoming : Routes.Incoming)
  : Prop :=
  Routes.method route = Routes.in_method incoming
  /\ is_Some (Routing.match_path (Routing.compile (Routes.path route))
                (Routes.in_path incoming)).

(** A middleware that lets every request through, and a decoder for
    values without escapes. *)
Definition open_door (incoming : Routes.Incoming) : option Outcome := None.

Definition plain_decode (text : string) : option string := Some text.


(** A node that answers with an HTTP error status: the body carries a
    JSON-RPC error, the axios failure its own message. *)
Definition erroring_node (cause : string) (e : RPCError)
  : list ZCashRPCRequest -> ZCashRPCRequest -> Settled :=
  fun _ request =>
    Rejected
      {| error_message := cause;
         error_response :=
           Some {| data := Some {| result := VNull; error := Some e;
                                   echoed_id := id request |} |} |}.

(** The number of answers that are not refusals. *)
Definition served (outcomes : list Outcome) : nat :=
  length (filter (fun outcome => refused outcome = false) outcomes).

(** The ids sent so far are 1, 2, ..., [requestId]. *)
Definition ids_in_step (this : state) : Prop :=
  0 <= requestId this /\ ids_sent this = seqZ 1 (requestId this).

(** The settings of [config.ts] when the environment says nothing. *)
Definition default_config : Config.Config :=
  {| Config.port := int 3000;
     Config.nodeEnv := "development";
     Config.zcash :=
       {| Config.rpcUrl := "https://zcash-mainnet.gateway.tatum.io/";
          Config.apiKey := "" |};
     Config.inboundApiKey := "" |}.

(** A send request with a number for an address and a negative amount. *)
Definition odd_send_request : Request :=
  {| Express.params := ∅; query := ∅;
     body := {[ "address" := VNumber (int 7);
                "amount" := VNumber (int (-1)) ]} |}.

(** An environment with the port written in hexadecimal. *)
Definition hex_port_env : gmap string string := {[ "PORT" := "0x1F" ]}.

(** ** Refusals *)

(** The message with which the handler of an endpoint refuses a request,
    if it refuses it. *)
Definition refusal (e : Endpoint) (req : Request) : option string :=
  match e with
  | Transaction | TransactionRaw =>
      if opt_truthy (Express.params req !! "txid") then None
      else Some "Transaction ID is required"
  | AddressValidate =>
      if opt_truthy (Express.params req !! "address") then None
      else Some "Address is required"
  | BlockchainBlock =>
      if opt_truthy (Express.params req !! "blockhash") then None
      else Some "Block hash is required"
  | BlockchainBlockHash =>
      if isNaN (parseInt (Express.params req !! "height"))
      then Some "Valid block height is required"
      else None
  | TransactionSend =>
      if truthy (prop (body req) "address") && truthy (prop (body req) "amount")
      then None
      else Some "Address and amount are required"
  | _ => None
  end.

(** The path parameter the handler of an endpoint reads, if any. *)
Definition path_params (e : Endpoint) : list string :=
  match e with
  | Transaction | TransactionRaw => ["txid"]
  | AddressValidate => ["address"]
  | BlockchainBlock => ["blockhash"]
  | BlockchainBlockHash => ["height"]
  | _ => []
  end.

(** The names of the parameters of a pattern. *)
Definition names (pattern : list Routing.Piece) : list string :=
  omap (fun piece =>
          match piece with
          | Routing.Named name => Some name
          | Routing.Literal _ => None
          end) pattern.

(** The endpoints of the route table, in its order. *)
Definition router_endpoints : list Endpoint :=
  [BlockchainInfo; BlockchainBlockCount; BlockchainBlockHash; BlockchainBlock;
   WalletInfo; WalletBalance; WalletNewAddress; WalletUnspent;
   Transaction; Transactions; TransactionRaw; TransactionSend;
   AddressValidate; NetworkInfo; NetworkConnections; MiningInfo;
   FeeEstimate].

(** [GET <path>], without query or body. *)
Definition get (path : string) : Routes.Incoming :=
  {| Routes.in_method := Routing.GET; Routes.in_path := path;
     Routes.in_query := ∅; Routes.in_body := ∅ |}.

(** ** A route with its parameter filled in *)

(** The segments of a path that follows a pattern, with [value] in the
    place of each parameter. *)
Definition fill (pattern : list Routing.Piece) (value : string)
  : list string :=
  (fun piece =>
     match piece with
     | Routing.Literal text => text
     | Routing.Named _ => value
     end) <$> pattern.

(** The parameters a handler finds when each of [names] is bound to
    [decoded]. *)
Definition bind_all (names : list string) (decoded : string)
  : gmap string string :=
  foldr (fun name params => <[name := decoded]> params) ∅ names.

(** * Properties *)

(** ** [parseInt] *)

Example parseInt_examples :
  parseInt (Some "6") = int 6 /\
  parseInt (Some "  -12abc") = int (-12) /\
  parseInt (Some "0x1F") = int 31 /\
  parseInt (Some "abc") = NaN /\
  parseInt (Some "") = NaN /\
  parseInt None = NaN /\
  parseInt (Some "0") = int 0.
Proof. repeat split; reflexivity. Qed.

(** ** The RPC client *)

Lemma rpcCall_unfold method params this :
  rpcCall method params this =
  (match rpcCall_try (answer this method params) with
   | Normal r => Normal r
   | Throw err => Throw (rpcCall_catch err)
   end, after_call this method params).
Proof.
  unfold rpcCall, answer, after_call, envelope, post; simpl.
  destruct (rpcCall_try _); reflexivity.
Qed.

Lemma rpcCall_state method params this :
  snd (rpcCall method params this) = after_call this method params.
Proof. rewrite rpcCall_unfold. reflexivity. Qed.

(** Every call hands exactly one envelope to the client, whatever comes
    back. *)
Lemma rpcCall_sent method params this :
  sent (client (snd (rpcCall method params this))) =
  (sent (client this) ++ [envelope this method params])%list.
Proof. rewrite rpcCall_state. reflexivity. Qed.

(** A transport-level failure (no HTTP answer at all) surfaces as a
    network error that carries the message of its cause. *)
Lemma rpcCall_transport_failure method params this cause :
  answer this method params = Rejected (new_Error cause) ->
  fst (rpcCall method params this) =
  Throw (new_Error ("Network Error: " +:+ cause)).
Proof.
  intros Hanswer. rewrite rpcCall_unfold. simpl. rewrite Hanswer. reflexivity.
Qed.

(** A failure that came with an HTTP answer (a status outside 2xx) is
    raised under a third tag, with the message of the body's error when
    it has one and the message of the cause otherwise. *)
Lemma rpcCall_http_failure method params this cause response :
  answer this method params
  = Rejected {| error_message := cause; error_response := Some response |} ->
  fst (rpcCall method params this) =
  Throw (new_Error ("ZCash RPC Error: " +:+
                    or_string (ZCashService.response_error_message response)
                              cause)).
Proof.
  intros Hanswer. rewrite rpcCall_unfold. simpl. rewrite Hanswer. reflexivity.
Qed.

(** A non-null [error] field: the error thrown inside the [try] block is
    caught by the [catch] clause of the same function, which finds no
    [response] on it and wraps it as a network error. *)
Lemma rpcCall_error_field method params this response e :
  answer this method params = Resolved response ->
  error (data response) = Some e ->
  fst (rpcCall method params this) =
  Throw (new_Error ("Network Error: " +:+
                    ("RPC Error: " +:+ message e
                     +:+ " (Code: " +:+ pretty (code e) +:+ ")"))).
Proof.
  intros Hanswer Herror. rewrite rpcCall_unfold. simpl.
  rewrite Hanswer. simpl. rewrite Herror. reflexivity.
Qed.

Lemma rpcCall_success method params this response :
  answer this method params = Resolved response ->
  error (data response) = None ->
  fst (rpcCall method params this) = Normal (result (data response)).
Proof.
  intros Hanswer Herror. rewrite rpcCall_unfold. simpl.
  rewrite Hanswer. simpl. rewrite Herror. reflexivity.
Qed.

(** C1. When the node answers [validateaddress] with the error
    [{code: -5, message: "Invalid address"}], [rpcCall] does not raise a
    failure of the RPC-error kind: the failure it raises is tagged as a
    network error (the RPC error text comes second), and it is the very
    failure raised for an unreachable node whose cause reads the same. So
    the caller cannot tell the two kinds apart. *)
Theorem rpcCall_remote_error_raised_as_network_error :
  invalid_address_failure
  = Throw (new_Error "Network Error: RPC Error: Invalid address (Code: -5)")
  /\ (exists e, invalid_address_failure = Throw e
              /\ failure_kind e = Some NetworkFailure)
  /\ invalid_address_failure
     = fst (rpcCall "validateaddress" [VString "t1abc"]
              (create (unreachable_node
                         "RPC Error: Invalid address (Code: -5)"))).
Proof.
  assert (Hfailed : invalid_address_failure = Throw (new_Error
            "Network Error: RPC Error: Invalid address (Code: -5)")).
  { vm_compute. reflexivity. }
  split; [exact Hfailed|]. split.
  - eexists. split; [exact Hfailed|]. vm_compute. reflexivity.
  - rewrite Hfailed. vm_compute. reflexivity.
Qed.

(** ** Correlation ids *)

Lemma counter_ahead_create node : counter_ahead (create node).
Proof. split; constructor. Qed.

Lemma counter_ahead_rpcCall method params this :
  counter_ahead this -> counter_ahead (snd (rpcCall method params this)).
Proof.
  intros [Hsorted Hbelow]. rewrite rpcCall_state.
  unfold counter_ahead, ids_sent, after_call; simpl.
  rewrite fmap_app; simpl. split.
  - apply StronglySorted_app_2.
    + intros i j Hi Hj. apply list_elem_of_singleton in Hj as ->.
      rewrite Forall_forall in Hbelow. specialize (Hbelow i Hi). lia.
    + exact Hsorted.
    + repeat constructor.
  - apply Forall_app. split.
    + eapply Forall_impl; [exact Hbelow|]. simpl. intros; lia.
    + repeat constructor. lia.
Qed.

Lemma counter_ahead_run_calls calls this :
  counter_ahead this -> counter_ahead (run_calls calls this).
Proof.
  revert this. induction calls as [|[method params] rest IH]; intros this H.
  - exact H.
  - simpl. apply IH, counter_ahead_rpcCall, H.
Qed.

Lemma strictly_increasing_NoDup (l : list Z) :
  StronglySorted Z.lt l -> NoDup l.
Proof.
  induction 1 as [|x l _ IH Hall]; constructor; [|exact IH].
  intros Hin. rewrite Forall_forall in Hall. specialize (Hall x Hin). lia.
Qed.

(** C3. Of two successive calls to [rpcCall], the second puts a strictly
    greater id in its envelope than the first; and over a whole process
    lifetime (any sequence of calls on a freshly constructed service) the
    ids sent increase strictly, so no two outbound calls share one. *)
Theorem correlation_id_strictly_increases :
  (forall this method1 params1 method2 params2,
     let first := rpcCall method1 params1 this in
     let second := rpcCall method2 params2 (snd first) in
     exists request1 request2,
       sent (client (snd second)) =
       sent (client this) ++ [request1; request2]
       /\ method request1 = method1 /\ method request2 = method2
       /\ id request1 < id request2)
  /\ (forall node calls,
        let ids := ids_sent (run_calls calls (create node)) in
        StronglySorted Z.lt ids /\ NoDup ids).
Proof.
  split.
  - intros this method1 params1 method2 params2 first second.
    exists (envelope this method1 params1),
           (envelope (snd first) method2 params2).
    subst first second. rewrite !rpcCall_sent, rpcCall_state. simpl.
    rewrite <- app_assoc. repeat split. lia.
  - intros node calls ids.
    destruct (counter_ahead_run_calls calls (create node)
                (counter_ahead_create node)) as [Hsorted _].
    split; [exact Hsorted | apply strictly_increasing_NoDup, Hsorted].
Qed.

(** ** The shape of a handler *)

Lemma respond_sent method params service reshape :
  sent (client (snd (respond (rpcCall method params service) reshape)))
  = sent (client service) ++ [envelope service method params].
Proof.
  rewrite rpcCall_unfold. unfold respond.
  destruct (rpcCall_try _); reflexivity.
Qed.

Lemma respond_json method params service reshape status payload :
  fst (respond (rpcCall method params service) reshape) = Json status payload ->
  exists r, status = 200 /\ payload = success (reshape r).
Proof.
  rewrite rpcCall_unfold. unfold respond.
  destruct (rpcCall_try _); simpl; intros H; [|discriminate].
  injection H as <- <-. eauto.
Qed.

Lemma respond_success method params service reshape response :
  answer service method params = Resolved response ->
  error (data response) = None ->
  fst (respond (rpcCall method params service) reshape)
  = Json 200 (success (reshape (result (data response)))).
Proof.
  intros Hanswer Herror.
  pose proof (rpcCall_success method params service response Hanswer Herror)
    as Hcall.
  unfold respond. destruct (rpcCall method params service) as [[r|err] s'];
    simpl in Hcall; [injection Hcall as ->; reflexivity | discriminate].
Qed.

(** A handler body that awaits one call and sends its result, reshaped,
    under [try ... catch next]. *)
Lemma try_catch_respond method params reshape service :
  ZCashController.try_catch_next
    (ZCashService.bind (rpcCall method params)
       (fun r => ZCashController.res_json (success (reshape r)))) service
  = respond (rpcCall method params service) reshape.
Proof.
  unfold ZCashController.try_catch_next, ZCashService.bind, respond,
    ZCashController.res_json, ZCashService.ret.
  destruct (rpcCall method params service) as [[r|err] service'];
    reflexivity.
Qed.

(** A handler body that answers 400 without calling. *)
Lemma try_catch_reject status payload service :
  ZCashController.try_catch_next
    (ZCashController.res_status_json status payload) service
  = (Json status payload, service).
Proof. reflexivity. Qed.

(** Every handler is a single linear sequence: it either answers 400 with
    a failure body and leaves the service alone, or makes exactly one
    call, of the method of its endpoint, and answers from its outcome. *)
Lemma endpoint_handler_cases e req service :
  (exists message,
     endpoint_handler e req service
     = (Json 400 (failure message), service))
  \/ (exists params,
        endpoint_handler e req service
        = respond (rpcCall (endpoint_method e) params service)
                  (reshaped e req)).
Proof.
  destruct e; simpl; unfold_handlers; unfold chosen; simpl;
    try (right; eexists; apply try_catch_respond).
  - destruct (Express.params req !! "txid") as [[|c txid]|];
      [left|right|left]; eexists;
      first [apply try_catch_reject | apply try_catch_respond].
  - destruct (negb (truthy (prop (body req) "address"))
              || negb (truthy (prop (body req) "amount")));
      [left|right]; eexists;
      first [apply try_catch_reject | apply try_catch_respond].
  - destruct (Express.params req !! "address") as [[|c address]|];
      [left|right|left]; eexists;
      first [apply try_catch_reject | apply try_catch_respond].
  - destruct (Express.params req !! "blockhash") as [[|c blockhash]|];
      [left|right|left]; eexists;
      first [apply try_catch_reject | apply try_catch_respond].
  - destruct (parseInt (Express.params req !! "height")) as [|h] eqn:Hheight;
      simpl; [left|right]; eexists; [apply try_catch_reject|].
    rewrite (try_catch_respond "getblockhash" [VNumber (Fin h)]
               (fun r => VObject [("height", VNumber (Fin h));
                                  ("blockhash", r)])).
    unfold reshaped. rewrite Hheight. reflexivity.
  - destruct (Express.params req !! "txid") as [[|c txid]|];
      [left|right|left]; eexists;
      first [apply try_catch_reject | apply try_catch_respond].
Qed.

(** ** Required fields *)

(** C2. A request that lacks a required field is answered with a status
    of at least 400 and the body [{success: false, error: message}]; the
    service is left as it was, so no envelope went to the remote node. *)
Theorem missing_required_field field req service :
  absent field req ->
  exists status message,
    fst (checking_handler field req service)
    = Json status (failure message)
    /\ 400 <= status
    /\ snd (checking_handler field req service) = service
    /\ sent (client (snd (checking_handler field req service)))
       = sent (client service).
Proof.
  intros Habsent.
  destruct field; simpl in Habsent; simpl;
    unfold ZCashController.sendToAddress, ZCashController.getTransaction,
      ZCashController.getRawTransaction, ZCashController.validateAddress,
      ZCashController.getBlock, ZCashController.try_catch_next, prop;
    rewrite Habsent; simpl;
    rewrite ?orb_true_r; simpl;
    eexists 400, _; repeat split; lia.
Qed.

Lemma missing_required_field_witness :
  exists status message,
    fst (ZCashController.sendToAddress bare_send_request
           (create (unreachable_node "connect ECONNREFUSED")))
    = Json status (failure message)
    /\ 400 <= status
    /\ snd (ZCashController.sendToAddress bare_send_request
              (create (unreachable_node "connect ECONNREFUSED")))
       = create (unreachable_node "connect ECONNREFUSED")
    /\ sent (client (snd (ZCashController.sendToAddress bare_send_request
              (create (unreachable_node "connect ECONNREFUSED")))))
       = [].
Proof.
  apply (missing_required_field SendAddress bare_send_request
           (create (unreachable_node "connect ECONNREFUSED"))).
  vm_compute. reflexivity.
Defined.

(** ** Sending funds *)

(** C9. [POST /transaction/send] with an address that is the empty string,
    or an amount equal to 0, is answered like a request without the field:
    status 400, [{success: false, error: 'Address and amount are
    required'}], and nothing is sent to the node. *)
Theorem sendToAddress_rejects_falsy_fields req service :
  body req !! "address" = Some (VString "")
  \/ (exists q, body req !! "amount" = Some (VNumber (Fin q)) /\ (q == 0)%Q) ->
  ZCashController.sendToAddress req service
  = (Json 400 (failure "Address and amount are required"), service)
  /\ sent (client (snd (ZCashController.sendToAddress req service)))
     = sent (client service).
Proof.
  intros Hfalsy.
  assert (Hguard : negb (truthy (prop (body req) "address"))
                   || negb (truthy (prop (body req) "amount")) = true).
  { unfold prop. destruct Hfalsy as [-> | (q & -> & Hzero)]; simpl.
    - reflexivity.
    - unfold Qeq in Hzero. simpl in Hzero.
      replace (Qnum q) with 0 by lia. apply orb_true_r. }
  unfold_handlers. rewrite Hguard. split; reflexivity.
Qed.

Lemma sendToAddress_rejects_falsy_fields_witness :
  ZCashController.sendToAddress empty_send_request wallet_service
  = (Json 400 (failure "Address and amount are required"), wallet_service)
  /\ sent (client (snd (ZCashController.sendToAddress empty_send_request
                          wallet_service)))
     = [].
Proof.
  apply (sendToAddress_rejects_falsy_fields empty_send_request
           wallet_service).
  left. vm_compute. reflexivity.
Defined.

(** ** Optional numeric parameters *)

(** Each handler of an optional parameter, once its required field is
    there, is one call answered through [respond]. *)
Lemma param_handler_calls p req service :
  required_present p req ->
  exists params reshape,
    param_handler p req service
    = respond (rpcCall (rpc_method p) params service) reshape
    /\ params !! rpc_position p = Some (VNumber (chosen p req))
    /\ (forall name r, echo_field p = Some name ->
          field name (reshape r) = Some (VNumber (chosen p req))).
Proof.
  intros Hpresent.
  destruct p; simpl in *; unfold_handlers; unfold chosen; simpl;
    try (destruct (Express.params req !! "blockhash") as [[|c blockhash]|];
         try discriminate Hpresent);
    eexists _, _; (split; [apply try_catch_respond|]);
    (split; [reflexivity|]);
    intros name r Hecho; try discriminate Hecho;
    injection Hecho as <-; reflexivity.
Qed.

Lemma parseInt_default_text p :
  parseInt (Some (default_text p)) = int (documented_default p).
Proof. destruct p; vm_compute; reflexivity. Qed.

Lemma chosen_falsy p req :
  number_truthy (parseInt (query req !! param_name p)) = false ->
  chosen p req = int (documented_default p).
Proof. unfold chosen, or_number. intros ->. reflexivity. Qed.

Lemma chosen_calls p req service :
  required_present p req -> calls_with p (chosen p req) req service.
Proof.
  intros Hpresent. unfold calls_with.
  destruct (param_handler_calls p req service Hpresent)
    as (params & reshape & -> & Hposition & _).
  exists (envelope service (rpc_method p) params).
  rewrite respond_sent. repeat split. exact Hposition.
Qed.


(** The handler only looks at the value [parseInt || default] settles on:
    requests that agree on it (and on everything else) are handled alike. *)
Lemma supply_same p text req service :
  or_number (parseInt (Some text)) (int (documented_default p)) = chosen p req ->
  param_handler p (supply p text req) service = param_handler p req service.
Proof.
  unfold chosen. intros Hsame.
  destruct p; simpl in *; unfold_handlers; unfold supply;
    cbn [Express.query Express.params Express.body];
    rewrite lookup_insert_eq, ?lookup_insert_ne by done;
    rewrite Hsame; reflexivity.
Qed.



(** C5. A value that [parseInt] turns into [NaN] does not get the request
    rejected: the handler goes on with the documented default, sends the
    RPC call with it, and answers as for the request with the default
    written out. For verbosity, the block hash of the path is assumed to
    be there, as it is whenever the route matches. *)
Theorem unparsable_parameter_defaults p req service text :
  query req !! param_name p = Some text ->
  parseInt (Some text) = NaN ->
  required_present p req ->
  calls_with p (int (documented_default p)) req service
  /\ param_handler p req service
     = param_handler p (supply p (default_text p) req) service
  /\ (forall status payload,
        fst (param_handler p req service) = Json status payload ->
        status = 200).
Proof.
  intros Hgiven Hparse Hpresent.
  assert (Hchosen : chosen p req = int (documented_default p)).
  { apply chosen_falsy. rewrite Hgiven, Hparse. reflexivity. }
  split; [|split].
  - rewrite <- Hchosen. apply chosen_calls, Hpresent.
  - symmetry. apply supply_same.
    rewrite parseInt_default_text, Hchosen. destruct p; reflexivity.
  - intros status payload Hjson.
    destruct (param_handler_calls p req service Hpresent)
      as (params & reshape & Hhandler & _).
    rewrite Hhandler in Hjson.
    apply respond_json in Hjson as (r & -> & _). reflexivity.
Qed.

Lemma unparsable_parameter_defaults_witness :
  calls_with TransactionsCount (int 10) garbled_count_request
    empty_wallet_service
  /\ ZCashController.listTransactions garbled_count_request
       empty_wallet_service
     = ZCashController.listTransactions
         (supply TransactionsCount "10" garbled_count_request)
         empty_wallet_service
  /\ (forall status payload,
        fst (ZCashController.listTransactions garbled_count_request
               empty_wallet_service)
        = Json status payload ->
        status = 200).
Proof.
  apply (unparsable_parameter_defaults TransactionsCount
           garbled_count_request empty_wallet_service "ten").
  - vm_compute. reflexivity.
  - vm_compute. reflexivity.
  - exact I.
Defined.



(** ** The block hash of a height *)

(** C6. [GET /blockchain/blockhash/:height]: when the height segment does
    not parse ([parseInt] gives [NaN]) the handler answers 400 with
    [{success: false, ...}] and calls nothing; when it parses to [h], one
    envelope is sent, a [getblockhash] with [h] as its only argument, and
    when the node returns a block hash the data of the response holds
    both [h] and that hash. *)
Theorem getBlockHash_requires_integer_height req service :
  (parseInt (Express.params req !! "height") = NaN ->
   ZCashController.getBlockHash req service
   = (Json 400 (failure "Valid block height is required"), service))
  /\ (forall h,
        parseInt (Express.params req !! "height") = Fin h ->
        sent (client (snd (ZCashController.getBlockHash req service)))
        = sent (client service)
          ++ [envelope service "getblockhash" [VNumber (Fin h)]]
        /\ (forall response,
              answer service "getblockhash" [VNumber (Fin h)]
              = Resolved response ->
              error (data response) = None ->
              fst (ZCashController.getBlockHash req service)
              = Json 200
                  (success (VObject [("height", VNumber (Fin h));
                                     ("blockhash",
                                      result (data response))])))).
Proof.
  split.
  - intros Hparse. unfold_handlers. rewrite Hparse. reflexivity.
  - intros h Hparse. unfold_handlers. rewrite Hparse. simpl.
    rewrite (try_catch_respond "getblockhash" [VNumber (Fin h)]
               (fun blockhash =>
                  VObject [("height", VNumber (Fin h));
                           ("blockhash", blockhash)])).
    split; [apply respond_sent|].
    intros response Hanswer Herror.
    apply (respond_success "getblockhash" [VNumber (Fin h)] service
             (fun blockhash =>
                VObject [("height", VNumber (Fin h));
                         ("blockhash", blockhash)])
             response Hanswer Herror).
Qed.

Lemma getBlockHash_requires_integer_height_witness :
  ZCashController.getBlockHash (height_request "latest") chain_service
  = (Json 400 (failure "Valid block height is required"), chain_service)
  /\ sent (client (snd (ZCashController.getBlockHash (height_request "42")
                          chain_service)))
     = [envelope chain_service "getblockhash" [VNumber (int 42)]]
  /\ fst (ZCashController.getBlockHash (height_request "42") chain_service)
     = Json 200 (success (VObject [("height", VNumber (int 42));
                                   ("blockhash", VString "00040fe8")])).
Proof.
  split.
  - apply (proj1 (getBlockHash_requires_integer_height
                    (height_request "latest") chain_service)).
    vm_compute. reflexivity.
  - destruct (proj2 (getBlockHash_requires_integer_height
                       (height_request "42") chain_service)
                (inject_Z 42)) as [Hsent Hdata].
    + vm_compute. reflexivity.
    + split; [exact Hsent|].
      apply (Hdata {| data := {| result := VString "00040fe8"; error := None;
                                 echoed_id := 1 |} |});
        vm_compute; reflexivity.
Defined.

(** ** Raw transactions *)

(** C10. [GET /transaction/:txid/raw] sends [getrawtransaction] with the
    txid and a number: 1 when the [verbose] query parameter is exactly the
    string ['true'], 0 for any other value and when it is absent. The
    second argument is never a boolean. *)
Theorem getRawTransaction_verbose_flag req service txid :
  Express.params req !! "txid" = Some txid ->
  txid <> "" ->
  exists flag,
    sent (client (snd (ZCashController.getRawTransaction req service)))
    = sent (client service)
      ++ [envelope service "getrawtransaction"
            [VString txid; VNumber (int flag)]]
    /\ (query req !! "verbose" = Some "true" -> flag = 1)
    /\ (query req !! "verbose" <> Some "true" -> flag = 0).
Proof.
  intros Htxid Hnonempty.
  exists (if bool_decide (query req !! "verbose" = Some "true")
          then 1 else 0).
  split.
  - unfold_handlers. rewrite Htxid.
    destruct txid as [|c txid]; [contradiction|]. simpl.
    rewrite try_catch_respond, respond_sent.
    destruct (bool_decide _); reflexivity.
  - split; intros Hverbose.
    + rewrite bool_decide_eq_true_2 by exact Hverbose. reflexivity.
    + rewrite bool_decide_eq_false_2 by exact Hverbose. reflexivity.
Qed.

Example verbose_argument_examples :
  verbose_argument (raw_request (Some "true")) = Some (VNumber (int 1))
  /\ verbose_argument (raw_request (Some "TRUE")) = Some (VNumber (int 0))
  /\ verbose_argument (raw_request (Some "1")) = Some (VNumber (int 0))
  /\ verbose_argument (raw_request (Some "false")) = Some (VNumber (int 0))
  /\ verbose_argument (raw_request None) = Some (VNumber (int 0)).
Proof. repeat split; vm_compute; reflexivity. Qed.

Lemma getRawTransaction_verbose_flag_witness :
  exists flag,
    sent (client (snd (ZCashController.getRawTransaction
                         (raw_request (Some "TRUE")) chain_service)))
    = [envelope chain_service "getrawtransaction"
         [VString "ab12"; VNumber (int flag)]]
    /\ (Some "TRUE" = Some "true" -> flag = 1)
    /\ (Some "TRUE" <> Some "true" -> flag = 0).
Proof.
  destruct (getRawTransaction_verbose_flag (raw_request (Some "TRUE"))
              chain_service "ab12") as (flag & Hsent & Htrue & Hother).
  - vm_compute. reflexivity.
  - discriminate.
  - exists flag. split; [exact Hsent|].
    split; intros H; [discriminate H | apply Hother; vm_compute; congruence].
Defined.

(** ** [parseInt] on decimal text *)

Lemma radixDigit_pretty_N_char (d : N) :
  (d < 10)%N -> radixDigit 10 (pretty_N_char d) = Some (Z.of_N d).
Proof.
  intros Hd.
  assert (d = 0 ∨ d = 1 ∨ d = 2 ∨ d = 3 ∨ d = 4 ∨ d = 5 ∨ d = 6 ∨ d = 7
          ∨ d = 8 ∨ d = 9)%N as Hcases by lia.
  repeat (destruct Hcases as [-> | Hcases]; [reflexivity|]).
  subst d. reflexivity.
Qed.

Lemma nonzeroDigit_pretty_N_char (d : N) :
  (0 < d < 10)%N -> nonzeroDigit (pretty_N_char d) = true.
Proof.
  intros Hd.
  assert (d = 1 ∨ d = 2 ∨ d = 3 ∨ d = 4 ∨ d = 5 ∨ d = 6 ∨ d = 7
          ∨ d = 8 ∨ d = 9)%N as Hcases by lia.
  repeat (destruct Hcases as [-> | Hcases]; [reflexivity|]).
  subst d. reflexivity.
Qed.

(** The digits that the printer puts in front of [s] are read back as
    the number printed. *)
Lemma parseDigits_pretty_N_go (x : N) (s : string) :
  parseDigits 10 None (pretty_N_go x s)
  = parseDigits 10 (if decide (x = 0%N) then None else Some (Z.of_N x)) s.
Proof.
  revert s. induction (N.lt_wf_0 x) as [x _ IH]. intros s.
  destruct (decide (x = 0%N)) as [-> | Hpos]; [reflexivity|].
  rewrite pretty_N_go_step by lia.
  rewrite IH by (apply N.div_lt; lia).
  cbn [parseDigits].
  rewrite radixDigit_pretty_N_char by (apply N.mod_lt; lia).
  f_equal. f_equal.
  pose proof (N.div_mod x 10 ltac:(lia)) as Hdivmod.
  destruct (decide (x `div` 10 = 0)%N) as [Hzero | Hnonzero]; simpl; lia.
Qed.

Lemma pretty_N_go_append (x : N) (s t : string) :
  pretty_N_go x s +:+ t = pretty_N_go x (s +:+ t).
Proof.
  revert s. induction (N.lt_wf_0 x) as [x _ IH]. intros s.
  destruct (decide (x = 0%N)) as [-> | Hpos]; [reflexivity|].
  rewrite (pretty_N_go_step x s), (pretty_N_go_step x (s +:+ t)) by lia.
  rewrite IH by (apply N.div_lt; lia). reflexivity.
Qed.

Lemma pretty_N_nonzero (n : N) (suffix : string) :
  n <> 0%N -> pretty n +:+ suffix = pretty_N_go n suffix.
Proof.
  intros Hn. unfold pretty, pretty_N.
  destruct (decide (n = 0%N)); [contradiction|].
  rewrite pretty_N_go_append. reflexivity.
Qed.

(** A positive number is printed with a first digit that is not [0]. *)
Lemma pretty_N_go_head (x : N) (s : string) :
  (0 < x)%N ->
  exists c rest, pretty_N_go x s = String c rest /\ nonzeroDigit c = true.
Proof.
  revert s. induction (N.lt_wf_0 x) as [x _ IH]. intros s Hpos.
  rewrite pretty_N_go_step by lia.
  destruct (decide (x `div` 10 = 0)%N) as [Hzero | Hnonzero].
  - rewrite Hzero, pretty_N_go_0. eexists _, _. split; [reflexivity|].
    apply nonzeroDigit_pretty_N_char.
    pose proof (N.div_mod x 10 ltac:(lia)) as Hdivmod.
    rewrite Hzero in Hdivmod.
    pose proof (N.mod_lt x 10 ltac:(lia)) as Hlt.
    generalize dependent (x `mod` 10)%N. intros r Hr Hlt. lia.
  - apply IH; [apply N.div_lt; lia | apply N.neq_0_lt_0; exact Hnonzero].
Qed.

Lemma nonzeroDigit_head (c : ascii) (rest : string) :
  nonzeroDigit c = true ->
  trimStart (String c rest) = String c rest
  /\ splitSign (String c rest) = (1, String c rest)
  /\ splitRadix (String c rest) = (10, String c rest).
Proof.
  destruct c as [[] [] [] [] [] [] [] []]; try discriminate; intros _;
    repeat split; reflexivity.
Qed.

Lemma parseDigits_stop (acc : option Z) (s : string) :
  startsWith decimalDigit s = false ->
  parseDigits 10 acc s = acc.
Proof.
  destruct s as [|c rest]; [reflexivity|]. simpl.
  destruct c as [[] [] [] [] [] [] [] []]; try discriminate; reflexivity.
Qed.

Lemma trimStart_append (ws s : string) :
  blank ws -> trimStart (ws +:+ s) = trimStart s.
Proof.
  unfold blank. induction ws as [|c ws IH]; [reflexivity|]. simpl.
  destruct (isWhiteSpace c); [exact IH | discriminate].
Qed.

(** The sign [parseInt] finds in front of a printed integer, and what is
    left for the digits. *)
Lemma splitSign_pretty (ws : string) (z : Z) (suffix : string) :
  blank ws ->
  splitSign (trimStart (ws +:+ pretty z +:+ suffix))
  = (if (z <? 0)%Z then -1 else 1, pretty (Z.abs_N z) +:+ suffix).
Proof.
  intros Hws. rewrite trimStart_append by exact Hws.
  destruct z as [|p|p]; simpl.
  - destruct suffix; reflexivity.
  - change (pretty (Z.pos p)) with (pretty (N.pos p)).
    rewrite pretty_N_nonzero by discriminate.
    destruct (pretty_N_go_head (N.pos p) suffix ltac:(lia))
      as (c & rest & -> & Hc).
    destruct (nonzeroDigit_head c rest Hc) as (-> & -> & _). reflexivity.
  - reflexivity.
Qed.

Lemma parseDigits_pretty (n : N) (suffix : string) :
  startsWith decimalDigit suffix = false ->
  parseDigits 10 None (pretty n +:+ suffix) = Some (Z.of_N n).
Proof.
  intros Hstop.
  destruct (decide (n = 0%N)) as [-> | Hn].
  - simpl. apply parseDigits_stop, Hstop.
  - rewrite pretty_N_nonzero, parseDigits_pretty_N_go by exact Hn.
    destruct (decide (n = 0%N)); [contradiction|].
    apply parseDigits_stop, Hstop.
Qed.

Lemma splitRadix_pretty (n : N) (suffix : string) :
  n <> 0%N \/ startsWith hexMarker suffix = false ->
  splitRadix (pretty n +:+ suffix) = (10, pretty n +:+ suffix).
Proof.
  intros Hhex.
  destruct (decide (n = 0%N)) as [-> | Hn].
  - destruct Hhex as [Hn | Hhex]; [contradiction|].
    destruct suffix as [|c rest]; [reflexivity|]. simpl in *.
    destruct c as [[] [] [] [] [] [] [] []]; try discriminate; reflexivity.
  - rewrite pretty_N_nonzero by exact Hn.
    destruct (pretty_N_go_head n suffix ltac:(lia))
      as (c & rest & -> & Hc).
    apply (nonzeroDigit_head c rest Hc).
Qed.

Lemma sign_abs (z : Z) :
  (if (z <? 0)%Z then -1 else 1) * Z.of_N (Z.abs_N z) = z.
Proof. destruct (Z.ltb_spec z 0); lia. Qed.

(** [parseInt] reads back an integer written in decimal, whatever white
    space comes before it and whatever comes after it that is not a
    digit; a lone [0] must not be followed by [x] or [X]. *)
Lemma parseInt_decimal (ws : string) (z : Z) (suffix : string) :
  blank ws ->
  startsWith decimalDigit suffix = false ->
  z <> 0 \/ startsWith hexMarker suffix = false ->
  parseInt (Some (ws +:+ pretty z +:+ suffix)) = int z.
Proof.
  intros Hws Hstop Hhex. unfold parseInt. simpl default.
  rewrite splitSign_pretty by exact Hws.
  rewrite splitRadix_pretty by (destruct Hhex; [left; lia | right; assumption]).
  rewrite parseDigits_pretty by exact Hstop.
  rewrite sign_abs. reflexivity.
Qed.

(** With radix 10 there is no hexadecimal reading to exclude. *)
Lemma parseInt_radix_decimal (ws : string) (z : Z) (suffix : string) :
  blank ws ->
  startsWith decimalDigit suffix = false ->
  parseInt_radix (Some (ws +:+ pretty z +:+ suffix)) 10 = int z.
Proof.
  intros Hws Hstop. unfold parseInt_radix. simpl default.
  rewrite splitSign_pretty by exact Hws. simpl.
  rewrite parseDigits_pretty by exact Hstop.
  rewrite sign_abs. reflexivity.
Qed.


(** ** Optional numeric parameters that are given *)



(** X2. [GET /blockchain/blockhash/:height] takes any safe integer (of
    magnitude below 2^53) written in decimal, zero and negative ones
    included: it makes the one [getblockhash] call with it and, when it
    answers with JSON, the status is 200 and the data echoes the
    height. *)
Theorem getBlockHash_any_integer req service ws z suffix :
  Express.params req !! "height" = Some (ws +:+ pretty z +:+ suffix) ->
  blank ws ->
  startsWith decimalDigit suffix = false ->
  z <> 0 \/ startsWith hexMarker suffix = false ->
  safe_integer z ->
  snd (ZCashController.getBlockHash req service)
  = after_call service "getblockhash" [VNumber (int z)]
  /\ (forall status payload,
        fst (ZCashController.getBlockHash req service) = Json status payload ->
        status = 200
        /\ field "data" payload ≫= field "height" = Some (VNumber (int z))).
Proof.
  intros Hgiven Hws Hstop Hhex _.
  assert (Hhandler :
    ZCashController.getBlockHash req service
    = respond (rpcCall "getblockhash" [VNumber (int z)] service)
        (fun blockhash => VObject [("height", VNumber (int z));
                                   ("blockhash", blockhash)])).
  { unfold_handlers. rewrite Hgiven, parseInt_decimal by assumption.
    apply try_catch_respond. }
  rewrite Hhandler. split.
  - rewrite rpcCall_unfold. unfold respond.
    destruct (rpcCall_try _); reflexivity.
  - intros status payload Hjson.
    apply respond_json in Hjson as (r & -> & ->). split; reflexivity.
Qed.

Lemma getBlockHash_any_integer_witness :
  snd (ZCashController.getBlockHash (height_request "-1") chain_service)
  = after_call chain_service "getblockhash" [VNumber (int (-1))]
  /\ (forall status payload,
        fst (ZCashController.getBlockHash (height_request "-1") chain_service)
        = Json status payload ->
        status = 200
        /\ field "data" payload ≫= field "height"
           = Some (VNumber (int (-1)))).
Proof.
  apply (getBlockHash_any_integer (height_request "-1") chain_service
           "" (-1) "").
  - vm_compute. reflexivity.
  - reflexivity.
  - reflexivity.
  - left. discriminate.
  - unfold safe_integer. lia.
Defined.

(** ** The outcomes of [rpcCall] *)

Lemma prefix_append (p s : string) : String.prefix p (p +:+ s) = true.
Proof.
  induction p as [|c p IH]; simpl; [destruct s; reflexivity|].
  destruct (ascii_dec c c) as [_|Hne]; [exact IH | contradiction].
Qed.

Lemma failure_kind_network (cause : string) :
  failure_kind (new_Error ("Network Error: " +:+ cause)) = Some NetworkFailure.
Proof. unfold failure_kind. simpl error_message. rewrite prefix_append. reflexivity. Qed.

Lemma failure_kind_zcash (cause : string) :
  failure_kind (new_Error ("ZCash RPC Error: " +:+ cause))
  = Some ZCashRPCFailure.
Proof.
  unfold failure_kind. simpl error_message.
  rewrite (prefix_append "ZCash RPC Error: " cause). reflexivity.
Qed.

Lemma rpcCall_catch_kind (err : JSError) :
  error_response (rpcCall_catch err) = None
  /\ (failure_kind (rpcCall_catch err) = Some NetworkFailure
      \/ failure_kind (rpcCall_catch err) = Some ZCashRPCFailure).
Proof.
  unfold rpcCall_catch. destruct (error_response err) as [response|].
  - split; [reflexivity|]. right. apply failure_kind_zcash.
  - split; [reflexivity|]. left. apply failure_kind_network.
Qed.

(** X3. [rpcCall] returns a value exactly when the node answered without
    an [error] field, and then it is the [result] field; every failure it
    raises is a plain [Error] without a [response], whose message starts
    with ['Network Error: '] or ['ZCash RPC Error: '], so that no failure
    is ever tagged ['RPC Error: '] first. *)
Theorem rpcCall_outcomes method params this :
  (forall r,
     fst (rpcCall method params this) = Normal r <->
     exists response,
       answer this method params = Resolved response
       /\ error (data response) = None
       /\ result (data response) = r)
  /\ (forall err,
        fst (rpcCall method params this) = Throw err ->
        error_response err = None
        /\ (failure_kind err = Some NetworkFailure
            \/ failure_kind err = Some ZCashRPCFailure)).
Proof.
  rewrite rpcCall_unfold. simpl. unfold rpcCall_try.
  destruct (answer this method params) as [response | cause].
  - destruct (error (data response)) as [e|] eqn:Herror; split.
    + intros r. split; [discriminate|].
      intros (response' & [= <-] & Hnone & _). congruence.
    + intros err [= <-]. apply rpcCall_catch_kind.
    + intros r. split.
      * intros [= <-]. exists response. auto.
      * intros (response' & [= <-] & _ & <-). reflexivity.
    + discriminate.
  - split.
    + intros r. split; [discriminate|]. intros (response & Hno & _).
      discriminate Hno.
    + intros err [= <-]. apply rpcCall_catch_kind.
Qed.

Lemma rpcCall_outcomes_witness :
  error_response
    (new_Error "Network Error: RPC Error: Invalid address (Code: -5)") = None
  /\ (failure_kind
        (new_Error "Network Error: RPC Error: Invalid address (Code: -5)")
      = Some NetworkFailure
      \/ failure_kind
           (new_Error "Network Error: RPC Error: Invalid address (Code: -5)")
         = Some ZCashRPCFailure).
Proof.
  apply (proj2 (rpcCall_outcomes "validateaddress" [VString "t1abc"]
                  (create (rejecting_node
                             {| code := -5; message := "Invalid address" |})))).
  vm_compute. reflexivity.
Defined.

(** X4. A failure that comes with an HTTP answer keeps the message of the
    JSON-RPC error in the body and nothing else of it: the numeric code
    and the message of the transport are dropped. Without a body, without
    an error in it, or with an empty message, the message of the transport
    is used instead. *)
Theorem rpcCall_http_error_message method params this cause response :
  answer this method params
  = Rejected {| error_message := cause; error_response := Some response |} ->
  (forall body e,
     data response = Some body -> error body = Some e -> message e <> "" ->
     fst (rpcCall method params this)
     = Throw (new_Error ("ZCash RPC Error: " +:+ message e)))
  /\ (data response = None
      \/ (exists body, data response = Some body
            /\ (error body = None
                \/ exists e, error body = Some e /\ message e = "")) ->
      fst (rpcCall method params this)
      = Throw (new_Error ("ZCash RPC Error: " +:+ cause))).
Proof.
  intros Hanswer. rewrite (rpcCall_http_failure _ _ _ _ _ Hanswer).
  unfold ZCashService.response_error_message. split.
  - intros body e -> -> Hmessage. simpl.
    destruct (message e); [contradiction | reflexivity].
  - intros [-> | (body & -> & [-> | (e & -> & Hempty)])]; simpl;
      [reflexivity | reflexivity | rewrite Hempty; reflexivity].
Qed.

Lemma rpcCall_http_error_message_witness :
  fst (rpcCall "sendtoaddress" []
         (create (erroring_node "Request failed with status code 500"
                    {| code := -6; message := "Insufficient funds" |})))
  = Throw (new_Error "ZCash RPC Error: Insufficient funds").
Proof.
  apply (proj1 (rpcCall_http_error_message "sendtoaddress" []
                  (create (erroring_node "Request failed with status code 500"
                             {| code := -6; message := "Insufficient funds" |}))
                  "Request failed with status code 500"
                  {| data := Some {| result := VNull;
                                     error := Some {| code := -6;
                                                      message :=
                                                        "Insufficient funds" |};
                                     echoed_id := 1 |} |}
                  ltac:(vm_compute; reflexivity))
           {| result := VNull;
              error := Some {| code := -6; message := "Insufficient funds" |};
              echoed_id := 1 |}
           {| code := -6; message := "Insufficient funds" |});
    [reflexivity | reflexivity | discriminate].
Defined.

(** ** What every handler does *)

Lemma respond_state method params service reshape :
  snd (respond (rpcCall method params service) reshape)
  = after_call service method params.
Proof.
  rewrite rpcCall_unfold. unfold respond.
  destruct (rpcCall_try _); reflexivity.
Qed.

Lemma respond_outcome method params service reshape :
  (exists r,
     fst (rpcCall method params service) = Normal r
     /\ fst (respond (rpcCall method params service) reshape)
        = Json 200 (success (reshape r)))
  \/ (exists err,
        fst (rpcCall method params service) = Throw err
        /\ fst (respond (rpcCall method params service) reshape) = Next err).
Proof.
  unfold respond.
  destruct (rpcCall method params service) as [[r|err] service'];
    [left | right]; eexists; split; reflexivity.
Qed.

Lemma after_call_changes service method params :
  after_call service method params <> service.
Proof.
  intros Hsame. apply (f_equal requestId) in Hsame. simpl in Hsame. lia.
Qed.

(** X5. Whatever the request, a handler does one of two things: it
    answers 400 with [{success: false, error}] and leaves the service as
    it was; or it makes exactly one call, of the method of its endpoint,
    and then answers 200 with [{success: true, data}] when the call
    returned, or hands the failure of the call to [next] when it did
    not. There is no other status and no second call. *)
Theorem handler_one_call_or_refusal e req service :
  (exists message,
     endpoint_handler e req service = (Json 400 (failure message), service))
  \/ (exists params,
        snd (endpoint_handler e req service)
        = after_call service (endpoint_method e) params
        /\ ((exists r,
               fst (rpcCall (endpoint_method e) params service) = Normal r
               /\ fst (endpoint_handler e req service)
                  = Json 200 (success (reshaped e req r)))
            \/ (exists err,
                  fst (rpcCall (endpoint_method e) params service) = Throw err
                  /\ fst (endpoint_handler e req service) = Next err))).
Proof.
  destruct (endpoint_handler_cases e req service)
    as [[message Hreject] | [params Hcall]].
  - left. eauto.
  - right. exists params. rewrite Hcall. split; [apply respond_state|].
    apply respond_outcome.
Qed.

(** X6. A handler raises no error of its own: what it hands to [next] is
    the failure of its one call to the node, unchanged, and therefore a
    plain [Error] tagged as a network or as a ZCash RPC error. *)
Theorem handler_forwards_call_failure e req service err :
  fst (endpoint_handler e req service) = Next err ->
  (exists params,
     snd (endpoint_handler e req service)
     = after_call service (endpoint_method e) params
     /\ fst (rpcCall (endpoint_method e) params service) = Throw err)
  /\ error_response err = None
  /\ (failure_kind err = Some NetworkFailure
      \/ failure_kind err = Some ZCashRPCFailure).
Proof.
  intros Hnext.
  destruct (endpoint_handler_cases e req service)
    as [[message Hreject] | [params Hcall]].
  - rewrite Hreject in Hnext. discriminate.
  - rewrite Hcall in Hnext |- *.
    destruct (respond_outcome (endpoint_method e) params service
                (reshaped e req)) as [(r & _ & Hjson) | (err' & Hthrow & Hfwd)].
    + rewrite Hjson in Hnext. discriminate.
    + rewrite Hfwd in Hnext. injection Hnext as ->.
      split; [exists params; split; [apply respond_state | exact Hthrow]|].
      rewrite rpcCall_unfold in Hthrow. simpl in Hthrow.
      destruct (rpcCall_try _); [discriminate|].
      injection Hthrow as <-. apply rpcCall_catch_kind.
Qed.

Lemma handler_forwards_call_failure_witness :
  (exists params,
     snd (ZCashController.getWalletInfo plain_request
            (create (unreachable_node "connect ECONNREFUSED")))
     = after_call (create (unreachable_node "connect ECONNREFUSED"))
         "getwalletinfo" params
     /\ fst (rpcCall "getwalletinfo" params
               (create (unreachable_node "connect ECONNREFUSED")))
        = Throw (new_Error "Network Error: connect ECONNREFUSED"))
  /\ error_response (new_Error "Network Error: connect ECONNREFUSED") = None
  /\ (failure_kind (new_Error "Network Error: connect ECONNREFUSED")
      = Some NetworkFailure
      \/ failure_kind (new_Error "Network Error: connect ECONNREFUSED")
         = Some ZCashRPCFailure).
Proof.
  apply (handler_forwards_call_failure WalletInfo plain_request
           (create (unreachable_node "connect ECONNREFUSED"))).
  vm_compute. reflexivity.
Defined.

(** ** Requests handled one after the other *)

Lemma handler_step e req service :
  (refused (fst (endpoint_handler e req service)) = true
   /\ snd (endpoint_handler e req service) = service)
  \/ (refused (fst (endpoint_handler e req service)) = false
      /\ exists params,
           snd (endpoint_handler e req service)
           = after_call service (endpoint_method e) params).
Proof.
  destruct (endpoint_handler_cases e req service)
    as [[message Hreject] | [params Hcall]].
  - left. rewrite Hreject. split; reflexivity.
  - right. rewrite Hcall. split; [|exists params; apply respond_state].
    destruct (respond_outcome (endpoint_method e) params service
                (reshaped e req)) as [(r & _ & ->) | (err & _ & ->)];
      reflexivity.
Qed.

Lemma ids_in_step_after_call service method params :
  ids_in_step service -> ids_in_step (after_call service method params).
Proof.
  unfold ids_in_step, ids_sent. intros [Hpos Hids]. simpl.
  split; [lia|]. rewrite fmap_app, Hids. simpl.
  rewrite (seqZ_app 1 (requestId service) 1) by lia.
  f_equal. rewrite (seqZ_cons (1 + requestId service) 1) by lia.
  rewrite seqZ_nil by lia. f_equal. lia.
Qed.

Lemma serve_invariant requests service :
  length (fst (serve requests service)) = length requests
  /\ requestId (snd (serve requests service))
     = requestId service + Z.of_nat (served (fst (serve requests service)))
  /\ (ids_in_step service -> ids_in_step (snd (serve requests service))).
Proof.
  revert service.
  induction requests as [|[e req] rest IH]; intros service.
  - simpl. split; [reflexivity|].
    split; [unfold served; simpl; lia | auto].
  - simpl.
    destruct (endpoint_handler e req service) as [outcome service'] eqn:Hh.
    specialize (IH service').
    destruct (serve rest service') as [outcomes final].
    simpl in *. destruct IH as (Hlength & Hcount & Hstep).
    pose proof (handler_step e req service) as Hcases.
    rewrite Hh in Hcases. simpl in Hcases. unfold served in *. simpl.
    destruct Hcases as [[Hrefused ->] | [Hrefused [params ->]]].
    + rewrite filter_cons_False by congruence.
      split; [lia|]. split; [exact Hcount | exact Hstep].
    + rewrite filter_cons_True by exact Hrefused. simpl in *.
      split; [lia|]. split; [lia|].
      intros Hinv. apply Hstep, ids_in_step_after_call, Hinv.
Qed.

(** X7. Over any sequence of requests handled by a fresh service, every
    request gets one outcome, the counter ends at the number of requests
    that were not refused with a 400, and the ids sent to the node are
    exactly 1, 2, ... up to that number: a refused request uses no id and
    every other request exactly one. *)
Theorem serve_ids node requests :
  length (fst (serve requests (create node))) = length requests
  /\ requestId (snd (serve requests (create node)))
     = Z.of_nat (served (fst (serve requests (create node))))
  /\ ids_sent (snd (serve requests (create node)))
     = seqZ 1 (Z.of_nat (served (fst (serve requests (create node))))).
Proof.
  destruct (serve_invariant requests (create node))
    as (Hlength & Hcount & Hstep).
  simpl in Hcount.
  destruct Hstep as [_ Hids]; [split; [simpl; lia | reflexivity]|].
  rewrite Hcount in Hids. auto.
Qed.

(** ** Sending funds, in full *)

(** X8. [POST /transaction/send] refuses a request exactly when its
    address or its amount is falsy (absent, [null], [false], [0], [NaN] or
    the empty string). Every other request makes the one [sendtoaddress]
    call with the address and the amount as they came, whatever their
    type or sign, and with the comment, or the empty string when there is
    none. *)
Theorem sendToAddress_refuses_iff_falsy req service :
  (refused (fst (ZCashController.sendToAddress req service)) = true <->
   truthy (prop (body req) "address") = false
   \/ truthy (prop (body req) "amount") = false)
  /\ (truthy (prop (body req) "address") = true ->
      truthy (prop (body req) "amount") = true ->
      snd (ZCashController.sendToAddress req service)
      = after_call service "sendtoaddress"
          [prop (body req) "address"; prop (body req) "amount";
           match prop (body req) "comment" with
           | VUndefined => VString ""
           | comment => comment
           end]).
Proof.
  unfold_handlers.
  destruct (truthy (prop (body req) "address")) eqn:Haddress;
    destruct (truthy (prop (body req) "amount")) eqn:Hamount; simpl;
    try (split; [split; [auto | reflexivity] | discriminate]).
  rewrite try_catch_respond. split.
  - split; [|intros [?|?]; discriminate].
    destruct (respond_outcome "sendtoaddress"
                [prop (body req) "address"; prop (body req) "amount";
                 ZCashService.string_arg "" (prop (body req) "comment")]
                service (fun txid => VObject [("txid", txid)]))
      as [(r & _ & ->) | (err & _ & ->)]; discriminate.
  - intros _ _. rewrite respond_state. unfold ZCashService.string_arg.
    destruct (prop (body req) "comment"); reflexivity.
Qed.

Lemma sendToAddress_refuses_iff_falsy_witness :
  snd (ZCashController.sendToAddress odd_send_request wallet_service)
  = after_call wallet_service "sendtoaddress"
      [VNumber (int 7); VNumber (int (-1)); VString ""].
Proof.
  rewrite (proj2 (sendToAddress_refuses_iff_falsy odd_send_request
                    wallet_service))
    by (vm_compute; reflexivity).
  vm_compute. reflexivity.
Defined.

(** ** The configuration *)

Lemma or_string_fallback (a : option string) (b : string) :
  opt_truthy a = false -> or_string a b = b.
Proof. destruct a as [[|c s]|]; [reflexivity | discriminate | reflexivity]. Qed.

Lemma or_string_filled (a : option string) (b : string) :
  b <> "" -> or_string a b <> "".
Proof. destruct a as [[|c s]|]; simpl; [auto | discriminate | auto]. Qed.

Lemma or_string_blank_or_unset (env : gmap string string) (name key b : string) :
  or_string (<[name := ""]> env !! key) b = or_string (delete name env !! key) b.
Proof.
  destruct (decide (name = key)) as [-> | Hne].
  - rewrite lookup_insert_eq, lookup_delete_eq. reflexivity.
  - rewrite lookup_insert_ne, lookup_delete_ne by exact Hne. reflexivity.
Qed.

(** X9. The configuration falls back on its defaults for every variable
    that is unset, and an empty variable counts as unset; whatever the
    environment, the node URL and the environment name are never empty. *)
Theorem config_fallbacks env :
  Config.config ∅ = default_config
  /\ (forall name,
        Config.config (<[name := ""]> env) = Config.config (delete name env))
  /\ Config.rpcUrl (Config.zcash (Config.config env)) <> ""
  /\ Config.nodeEnv (Config.config env) <> "".
Proof.
  split; [vm_compute; reflexivity|]. split; [|split].
  - intros name. unfold Config.config.
    rewrite !or_string_blank_or_unset. reflexivity.
  - apply or_string_filled. discriminate.
  - apply or_string_filled. discriminate.
Qed.

Lemma pretty_Z_filled (ws : string) (z : Z) (suffix : string) :
  opt_truthy (Some (ws +:+ pretty z +:+ suffix)) = true.
Proof.
  destruct ws; [|reflexivity]. simpl.
  destruct z as [|p|p]; [reflexivity | | reflexivity].
  change (pretty (Z.pos p)) with (pretty (N.pos p)).
  rewrite pretty_N_nonzero by discriminate.
  destruct (pretty_N_go_head (N.pos p) suffix ltac:(lia)) as (c & rest & -> & _).
  reflexivity.
Qed.

Lemma or_string_given (text b : string) :
  opt_truthy (Some text) = true -> or_string (Some text) b = text.
Proof. destruct text; [discriminate | reflexivity]. Qed.

(** X10. The port is the safe integer (of magnitude below 2^53) that
    [PORT] starts with, read in decimal ([0x1F] is port 0, not 31); a
    [PORT] that starts with anything but white space, a sign or a digit
    makes the port [NaN], the default 3000 being kept for an unset or
    empty variable. *)
Theorem config_port env text :
  env !! "PORT" = Some text ->
  (forall ws n suffix,
     text = ws +:+ pretty n +:+ suffix ->
     blank ws ->
     startsWith decimalDigit suffix = false ->
     safe_integer n ->
     Config.port (Config.config env) = int n)
  /\ (forall c rest,
        trimStart text = String c rest ->
        decimalDigit c = false -> c <> "-"%char -> c <> "+"%char ->
        Config.port (Config.config env) = NaN).
Proof.
  intros Hport. unfold Config.config. simpl. rewrite Hport. split.
  - intros ws n suffix -> Hws Hstop _.
    rewrite or_string_given by apply pretty_Z_filled.
    apply parseInt_radix_decimal; assumption.
  - intros c rest Htrim Hdigit Hminus Hplus.
    rewrite or_string_given by (destruct text; [discriminate | reflexivity]).
    unfold parseInt_radix. simpl default. rewrite Htrim.
    destruct c as [[] [] [] [] [] [] [] []];
      try discriminate Hdigit; try contradiction; reflexivity.
Qed.

Lemma config_port_witness :
  Config.port (Config.config hex_port_env) = int 0.
Proof.
  assert (Hport : hex_port_env !! "PORT" = Some "0x1F")
    by (vm_compute; reflexivity).
  apply (proj1 (config_port hex_port_env "0x1F" Hport) "" 0 "x1F");
    try reflexivity.
  unfold safe_integer. lia.
Defined.

(** ** Refusals *)

Lemma refusal_decides e req service :
  (forall message,
     refusal e req = Some message ->
     endpoint_handler e req service = (Json 400 (failure message), service))
  /\ (refusal e req = None ->
      refused (fst (endpoint_handler e req service)) = false
      /\ exists params,
           snd (endpoint_handler e req service)
           = after_call service (endpoint_method e) params).
Proof.
  assert (Hcall : forall method params reshape,
    endpoint_handler e req service
    = respond (rpcCall method params service) reshape ->
    endpoint_method e = method ->
    refused (fst (endpoint_handler e req service)) = false
    /\ exists params,
         snd (endpoint_handler e req service)
         = after_call service (endpoint_method e) params).
  { intros method params reshape -> ->. split.
    - destruct (respond_outcome method params service reshape)
        as [(r & _ & ->) | (err & _ & ->)]; reflexivity.
    - exists params. apply respond_state. }
  destruct e; simpl refusal; simpl endpoint_handler in *;
    try (split; [discriminate|]; intros _;
         eapply Hcall; [unfold_handlers; apply try_catch_respond|reflexivity]).
  - destruct (Express.params req !! "txid") as [[|c txid]|] eqn:Hparam;
      simpl; (split; [intros message [= <-] | intros Hnone]);
      try discriminate.
    + unfold_handlers. rewrite Hparam. reflexivity.
    + eapply Hcall; [unfold_handlers; rewrite Hparam;
                     apply try_catch_respond | reflexivity].
    + unfold_handlers. rewrite Hparam. reflexivity.
  - destruct (truthy (prop (body req) "address")
              && truthy (prop (body req) "amount")) eqn:Hguard;
      (split; [intros message [= <-] | intros Hnone]); try discriminate.
    + apply andb_true_iff in Hguard as [Haddress Hamount].
      eapply Hcall; [unfold_handlers; rewrite Haddress, Hamount;
                     apply try_catch_respond | reflexivity].
    + unfold_handlers.
      replace (negb (truthy (prop (body req) "address"))
               || negb (truthy (prop (body req) "amount"))) with true;
        [reflexivity|].
      rewrite <- negb_andb, Hguard. reflexivity.
  - destruct (Express.params req !! "address") as [[|c address]|] eqn:Hparam;
      simpl; (split; [intros message [= <-] | intros Hnone]);
      try discriminate.
    + unfold_handlers. rewrite Hparam. reflexivity.
    + eapply Hcall; [unfold_handlers; rewrite Hparam;
                     apply try_catch_respond | reflexivity].
    + unfold_handlers. rewrite Hparam. reflexivity.
  - destruct (Express.params req !! "blockhash") as [[|c blockhash]|]
      eqn:Hparam;
      simpl; (split; [intros message [= <-] | intros Hnone]);
      try discriminate.
    + unfold_handlers. rewrite Hparam. reflexivity.
    + eapply Hcall; [unfold_handlers; rewrite Hparam;
                     apply try_catch_respond | reflexivity].
    + unfold_handlers. rewrite Hparam. reflexivity.
  - destruct (parseInt (Express.params req !! "height")) as [|h] eqn:Hheight;
      simpl; (split; [intros message [= <-] | intros Hnone]);
      try discriminate.
    + unfold_handlers. rewrite Hheight. reflexivity.
    + eapply Hcall; [unfold_handlers; rewrite Hheight; simpl;
                     apply (try_catch_respond "getblockhash"
                              [VNumber (Fin h)]
                              (fun r => VObject [("height", VNumber (Fin h));
                                                 ("blockhash", r)]))
                    | reflexivity].
  - destruct (Express.params req !! "txid") as [[|c txid]|] eqn:Hparam;
      simpl; (split; [intros message [= <-] | intros Hnone]);
      try discriminate.
    + unfold_handlers. rewrite Hparam. reflexivity.
    + eapply Hcall; [unfold_handlers; rewrite Hparam;
                     apply try_catch_respond | reflexivity].
    + unfold_handlers. rewrite Hparam. reflexivity.
Qed.

(** ** The success path *)

(** C7. The success path. [rpcCall] returns the [result] field of a
    response without error as it is; and a handler that does not refuse
    its request makes its one call to the node, and when the node answers
    that call without error the handler responds with status 200 and
    [{success: true, data}], where [data] is the result of the node,
    verbatim or reshaped as documented. *)
Theorem success_path :
  (forall method params this response,
     answer this method params = Resolved response ->
     error (data response) = None ->
     fst (rpcCall method params this) = Normal (result (data response)))
  /\ (forall e req service,
        refusal e req = None ->
        exists params,
          snd (endpoint_handler e req service)
          = after_call service (endpoint_method e) params
          /\ (forall response,
                answer service (endpoint_method e) params
                = Resolved response ->
                error (data response) = None ->
                fst (endpoint_handler e req service)
                = Json 200
                    (success (reshaped e req (result (data response)))))).
Proof.
  split; [exact rpcCall_success|].
  intros e req service Hnone.
  destruct (proj2 (refusal_decides e req service) Hnone) as [Hnot _].
  destruct (endpoint_handler_cases e req service)
    as [[message Hreject] | [params Hcall]].
  - rewrite Hreject in Hnot. discriminate.
  - exists params. rewrite Hcall. split; [apply respond_state|].
    intros response Hanswer Herror.
    apply respond_success; assumption.
Qed.

Lemma success_path_witness :
  fst (rpcCall "getbalance" [VString "*"; VNumber (int 1)] wallet_service)
  = Normal (VNumber (int 5))
  /\ exists params,
       snd (ZCashController.getBalance plain_request wallet_service)
       = after_call wallet_service "getbalance" params
       /\ (forall response,
             answer wallet_service "getbalance" params = Resolved response ->
             error (data response) = None ->
             fst (ZCashController.getBalance plain_request wallet_service)
             = Json 200
                 (success (reshaped WalletBalance plain_request
                             (result (data response))))).
Proof.
  split.
  - apply (proj1 success_path "getbalance" [VString "*"; VNumber (int 1)]
             wallet_service
             {| data := {| result := VNumber (int 5); error := None;
                           echoed_id := 1 |} |});
      vm_compute; reflexivity.
  - apply (proj2 success_path WalletBalance plain_request wallet_service).
    reflexivity.
Defined.

(** ** The complete list of refusals *)

(** X11. The refusals of the interface, all of them: the handler of an
    endpoint answers 400 exactly when its txid, address or block hash is
    missing or empty, its height does not parse, or (for a send) the
    address or the amount is falsy, with the message that says so and
    without calling the node; every other request makes the call and is
    not answered with a 400. *)
Theorem refusals_complete e req service :
  (forall message,
     refusal e req = Some message <->
     endpoint_handler e req service = (Json 400 (failure message), service))
  /\ (refusal e req = None <->
      refused (fst (endpoint_handler e req service)) = false)
  /\ (refusal e req = None ->
      exists params,
        snd (endpoint_handler e req service)
        = after_call service (endpoint_method e) params).
Proof.
  destruct (refusal_decides e req service) as [Hrefuse Hcall].
  split; [|split].
  - intros message. split; [apply Hrefuse|]. intros Hrun.
    destruct (refusal e req) as [message'|] eqn:Hrefusal.
    + rewrite (Hrefuse message' eq_refl) in Hrun.
      injection Hrun as ->. reflexivity.
    + destruct (Hcall eq_refl) as [Hnot _]. rewrite Hrun in Hnot.
      discriminate.
  - split; [intros Hnone; apply Hcall, Hnone|]. intros Hnot.
    destruct (refusal e req) as [message|] eqn:Hrefusal; [|reflexivity].
    rewrite (Hrefuse message eq_refl) in Hnot. discriminate.
  - intros Hnone. apply Hcall, Hnone.
Qed.

Lemma refusals_complete_witness :
  ZCashController.getBlockHash (height_request "latest") chain_service
  = (Json 400 (failure "Valid block height is required"), chain_service).
Proof.
  apply (proj1 (proj1 (refusals_complete BlockchainBlockHash
                         (height_request "latest") chain_service)
                  "Valid block height is required")).
  vm_compute. reflexivity.
Defined.

(** ** The route table *)

Lemma same_text_meet (a b s : string) :
  Routing.same_text a s = true -> Routing.same_text b s = true ->
  Routing.same_text a b = true.
Proof.
  revert b s. induction a as [|x a IH]; intros [|y b] [|z s]; simpl;
    try discriminate; [reflexivity|].
  destruct (Ascii.eqb_spec (Routing.lower x) (Routing.lower z)) as [Hxz|];
    [|discriminate].
  destruct (Ascii.eqb_spec (Routing.lower y) (Routing.lower z)) as [Hyz|];
    [|discriminate].
  intros Ha Hb. rewrite Hxz, <- Hyz, Ascii.eqb_refl. eapply IH; eassumption.
Qed.

Lemma overlap_of_matches (p q : list Routing.Piece) (segs : list string) :
  is_Some (Routing.match_pieces p segs) ->
  is_Some (Routing.match_pieces q segs) ->
  overlap p q = true.
Proof.
  revert q segs.
  induction p as [|[a|name] p IH]; intros [|[b|name'] q] [|seg segs]; simpl;
    intros [r1 H1] [r2 H2]; try discriminate; try reflexivity;
    repeat match goal with
      | H : (if ?c then _ else _) = Some _ |- _ =>
          destruct c eqn:?; [|discriminate H]
      | H : match ?s with EmptyString => _ | String _ _ => _ end = Some _
        |- _ => destruct s; [discriminate H|]
      | H : match ?m with Some _ => _ | None => _ end = Some _ |- _ =>
          destruct m eqn:?; [|discriminate H]
      end;
    try (apply andb_true_iff; split; [eapply same_text_meet; eassumption|]);
    eapply IH; eauto.
Qed.

Lemma rivals_of_matches (a b : Routes.Route) (incoming : Routes.Incoming) :
  route_matches a incoming -> route_matches b incoming -> rivals a b = true.
Proof.
  unfold route_matches, rivals, Routing.match_path.
  intros [Ha Hpa] [Hb Hpb]. rewrite Ha, Hb.
  destruct (Routing.segments _) as [segs|];
    [|destruct Hpa; discriminate].
  apply andb_true_iff. split.
  - destruct (Routes.in_method incoming); reflexivity.
  - eapply overlap_of_matches; eassumption.
Qed.

Lemma router_no_rivals (i j : nat) (a b : Routes.Route) :
  Routes.router !! i = Some a -> Routes.router !! j = Some b ->
  rivals a b = true -> i = j.
Proof.
  intros Hi Hj Hrivals.
  do 17 (destruct i as [|i];
         [injection Hi as <-;
          do 17 (destruct j as [|j];
                 [injection Hj as <-;
                  first [reflexivity | vm_compute in Hrivals; discriminate]|]);
          discriminate Hj|]).
  discriminate Hi.
Qed.

(** X12. The route table is unambiguous: no request matches two of its
    routes, whatever they are compared with trailing slash, letter case
    and parameters taken into account, so the order of the table plays no
    part. *)
Theorem routes_unambiguous incoming i j a b :
  Routes.router !! i = Some a ->
  Routes.router !! j = Some b ->
  i <> j ->
  route_matches a incoming ->
  ~ route_matches b incoming.
Proof.
  intros Hi Hj Hdiff Ha Hb. apply Hdiff.
  eapply router_no_rivals; [exact Hi | exact Hj |].
  eapply rivals_of_matches; eassumption.
Qed.

Lemma routes_unambiguous_witness :
  ~ route_matches
      {| Routes.method := Routing.GET; Routes.path := "/transactions";
         Routes.handler := ZCashController.listTransactions |}
      (get "/Transaction/send/").
Proof.
  apply (routes_unambiguous (get "/Transaction/send/") 8 9
           {| Routes.method := Routing.GET; Routes.path := "/transaction/:txid";
              Routes.handler := ZCashController.getTransaction |}
           {| Routes.method := Routing.GET; Routes.path := "/transactions";
              Routes.handler := ZCashController.listTransactions |}).
  - reflexivity.
  - reflexivity.
  - discriminate.
  - split; [reflexivity|]. vm_compute. eauto.
Defined.

(** ** Requests that come through the router *)

Lemma find_route_some routes incoming route raw :
  Routes.find_route routes incoming = Some (route, raw) ->
  route ∈ routes
  /\ Routing.match_path (Routing.compile (Routes.path route))
       (Routes.in_path incoming) = Some raw.
Proof.
  induction routes as [|first rest IH]; simpl; [discriminate|].
  intros Hfound.
  assert (Hrest : Routes.find_route rest incoming = Some (route, raw) ->
                  route ∈ first :: rest
                  /\ Routing.match_path (Routing.compile (Routes.path route))
                       (Routes.in_path incoming) = Some raw).
  { intros Hlater. destruct (IH Hlater). split; [right|]; assumption. }
  destruct (Routes.method_eqb _ _); [|auto].
  destruct (Routing.match_path (Routing.compile (Routes.path first))
              (Routes.in_path incoming)) as [raw'|] eqn:Hmatch; [|auto].
  simplify_eq. split; [left | exact Hmatch].
Qed.

(** A match binds the parameters of the pattern, in order, to segments
    that are not empty. *)
Lemma match_pieces_raw pattern segs raw :
  Routing.match_pieces pattern segs = Some raw ->
  raw.*1 = names pattern /\ Forall (fun binding => binding.2 <> "") raw.
Proof.
  revert segs raw.
  induction pattern as [|[text|name] pattern IH]; intros [|seg segs] raw;
    simpl; try discriminate.
  - intros [= <-]. split; [reflexivity | constructor].
  - destruct (Routing.same_text text seg); [|discriminate]. apply IH.
  - destruct seg as [|c seg]; [discriminate|].
    destruct (Routing.match_pieces pattern segs) as [raw'|] eqn:Hrest;
      [|discriminate].
    intros [= <-]. destruct (IH _ _ Hrest) as [Hnames Hfilled].
    split; [unfold names in *; simpl; f_equal; exact Hnames|].
    constructor; [discriminate | exact Hfilled].
Qed.

(** The handlers of the table are those of the endpoints, and each route
    binds the path parameter its handler reads. *)
Lemma router_by_endpoint :
  Forall2 (fun route e =>
             Routes.handler route = endpoint_handler e
             /\ names (Routing.compile (Routes.path route)) = path_params e)
    Routes.router router_endpoints.
Proof. repeat constructor. Qed.

Section Routed.

Variable authenticateApiKey : Routes.Incoming -> option Outcome.
Variable decodeURIComponent : string -> option string.

(** Decoding never turns a text that is not empty into the empty text. *)
Hypothesis decode_filled :
  forall text decoded,
    decodeURIComponent text = Some decoded -> text <> "" -> decoded <> "".

Lemma decode_params_filled raw params name :
  Routes.decode_params decodeURIComponent raw = inr params ->
  Forall (fun binding => binding.2 <> "") raw ->
  name ∈ raw.*1 ->
  opt_truthy (params !! name) = true.
Proof.
  revert params. induction raw as [|[key text] raw IH]; intros params; simpl.
  - intros _ _ Hin. inversion Hin.
  - destruct (decodeURIComponent text) as [decoded|] eqn:Hdecode;
      [|discriminate].
    destruct (Routes.decode_params decodeURIComponent raw) as [bad|params']
      eqn:Hrest; [discriminate|].
    intros [= <-] Hfilled Hin.
    apply Forall_cons in Hfilled as [Htext Hfilled]. simpl in Htext.
    destruct (decide (key = name)) as [-> | Hne].
    + rewrite lookup_insert_eq.
      pose proof (decode_filled _ _ Hdecode Htext).
      destruct decoded; [contradiction | reflexivity].
    + rewrite lookup_insert_ne by exact Hne.
      apply elem_of_cons in Hin as [Heq | Hin]; [congruence|].
      apply IH; auto.
Qed.

Lemma refusal_with_path_params e req message :
  (forall name, name ∈ path_params e ->
                opt_truthy (Express.params req !! name) = true) ->
  refusal e req = Some message ->
  message = "Valid block height is required"
  \/ message = "Address and amount are required".
Proof.
  intros Hpresent.
  destruct e; simpl; try discriminate;
    try (rewrite Hpresent by (simpl; set_solver); discriminate).
  - destruct (_ && _); [discriminate|]. intros [= <-]. auto.
  - destruct (isNaN _); [|discriminate]. intros [= <-]. auto.
Qed.

(** X13. Behind the router, the guards on path parameters never fire: a
    route only matches when its parameter segment is not empty, so a 400
    sent by a handler says either that the height is not valid or that
    address and amount are required, and never that a transaction id, an
    address or a block hash is missing. *)
Theorem routed_refusals incoming service message :
  authenticateApiKey incoming = None ->
  fst (Routes.dispatch authenticateApiKey decodeURIComponent incoming service)
  = Some (Json 400 (failure message)) ->
  message = "Valid block height is required"
  \/ message = "Address and amount are required".
Proof.
  intros Hauth. unfold Routes.dispatch. rewrite Hauth.
  destruct (Routes.find_route Routes.router incoming) as [[route raw]|]
    eqn:Hfound; [|discriminate].
  apply find_route_some in Hfound as [Hin Hmatch].
  destruct (Routes.decode_params decodeURIComponent raw) as [bad|params]
    eqn:Hdecode; [discriminate|].
  unfold Routing.match_path in Hmatch.
  destruct (Routing.segments _) as [segs|]; [|discriminate].
  apply match_pieces_raw in Hmatch as [Hnames Hfilled].
  apply list_elem_of_lookup in Hin as [i Hi].
  destruct (Forall2_lookup_l _ _ _ _ _ router_by_endpoint Hi)
    as (e & _ & Hhandler & Hpath).
  rewrite Hhandler.
  set (req := {| Express.params := params;
                 query := Routes.in_query incoming;
                 body := Routes.in_body incoming |}).
  destruct (endpoint_handler e req service) as [outcome service'] eqn:Hrun.
  simpl. intros [= ->].
  destruct (refusal e req) as [message'|] eqn:Hrefusal.
  - pose proof (proj1 (refusal_decides e req service) _ Hrefusal) as Hrefused.
    rewrite Hrun in Hrefused. injection Hrefused as <- _.
    eapply (refusal_with_path_params e req); [|exact Hrefusal].
    intros name Hname. simpl.
    eapply decode_params_filled; [exact Hdecode | exact Hfilled|].
    rewrite Hnames, Hpath. exact Hname.
  - destruct (proj2 (refusal_decides e req service) Hrefusal) as [Hnot _].
    rewrite Hrun in Hnot. discriminate.
Qed.

End Routed.

(** ** Every route can be reached *)

Lemma same_text_refl (a : string) : Routing.same_text a a = true.
Proof.
  induction a as [|c a IH]; [reflexivity|]. simpl.
  rewrite Ascii.eqb_refl. exact IH.
Qed.

(** A path that follows a pattern matches it, and binds each parameter
    to the value put in its place. *)
Lemma match_pieces_fill pattern value :
  value <> "" ->
  Routing.match_pieces pattern (fill pattern value)
  = Some ((fun name => (name, value)) <$> names pattern).
Proof.
  intros Hvalue. destruct value as [|c value]; [contradiction|].
  induction pattern as [|[text|name] pattern IH]; [reflexivity| |].
  - change (fill (Routing.Literal text :: pattern) (String c value))
      with (text :: fill pattern (String c value)).
    cbn [Routing.match_pieces]. rewrite same_text_refl. exact IH.
  - change (fill (Routing.Named name :: pattern) (String c value))
      with (String c value :: fill pattern (String c value)).
    cbn [Routing.match_pieces]. rewrite IH. reflexivity.
Qed.

Lemma method_eqb_refl (m : Routing.Method) : Routes.method_eqb m m = true.
Proof. destruct m; reflexivity. Qed.

(** When some route of a table matches, [find_route] returns a route of
    the table that matches. *)
Lemma find_route_finds routes incoming i route :
  routes !! i = Some route ->
  route_matches route incoming ->
  exists j found raw,
    Routes.find_route routes incoming = Some (found, raw)
    /\ routes !! j = Some found
    /\ route_matches found incoming
    /\ Routing.match_path (Routing.compile (Routes.path found))
         (Routes.in_path incoming) = Some raw.
Proof.
  revert i. induction routes as [|first rest IH]; intros i Hi Hmatches;
    [destruct i; discriminate|].
  cbn [Routes.find_route].
  destruct (Routes.method_eqb (Routes.method first)
              (Routes.in_method incoming)) eqn:Hmethod.
  - destruct (Routing.match_path (Routing.compile (Routes.path first))
                (Routes.in_path incoming)) as [raw|] eqn:Hpath.
    + exists 0%nat, first, raw. repeat split; [|eauto|exact Hpath].
      destruct (Routes.method first), (Routes.in_method incoming);
        (reflexivity || discriminate).
    + destruct i as [|i].
      * injection Hi as <-. destruct Hmatches as [_ [raw Hraw]].
        rewrite Hraw in Hpath. discriminate.
      * destruct (IH i Hi Hmatches) as (j & found & raw & H1 & H2 & H3).
        exists (S j), found, raw. auto.
  - destruct i as [|i].
    + injection Hi as <-. destruct Hmatches as [Hsame _].
      rewrite Hsame, method_eqb_refl in Hmethod. discriminate.
    + destruct (IH i Hi Hmatches) as (j & found & raw & H1 & H2 & H3).
      exists (S j), found, raw. auto.
Qed.

Section Reach.

Variable authenticateApiKey : Routes.Incoming -> option Outcome.
Variable decodeURIComponent : string -> option string.

Lemma decode_bind_all names value decoded :
  decodeURIComponent value = Some decoded ->
  Routes.decode_params decodeURIComponent
    ((fun name => (name, value)) <$> names)
  = inr (bind_all names decoded).
Proof.
  intros Hdecode. induction names as [|name names IH]; [reflexivity|].
  cbn [fmap list_fmap Routes.decode_params]. rewrite Hdecode.
  change (Routes.decode_params decodeURIComponent
            (list_fmap _ _ (fun name => (name, value)) names))
    with (Routes.decode_params decodeURIComponent
            ((fun name => (name, value)) <$> names)).
  rewrite IH. reflexivity.
Qed.

(** X14. Every route of the table can be reached, and only by its own
    handler: take a request with the method of a route whose path has
    the segments of the route's path, with a segment [value] that is not
    empty in the place of the parameter. Once the middleware lets it
    through and [value] decodes, the router hands the request to the
    handler of that route and to no other, with the decoded value bound
    to the name of the parameter, and the answer is the handler's. *)
Theorem route_reaches_handler i route value decoded incoming service :
  Routes.router !! i = Some route ->
  Routes.in_method incoming = Routes.method route ->
  Routing.segments (Routes.in_path incoming)
  = Some (fill (Routing.compile (Routes.path route)) value) ->
  value <> "" ->
  decodeURIComponent value = Some decoded ->
  authenticateApiKey incoming = None ->
  Routes.dispatch authenticateApiKey decodeURIComponent incoming service
  = (Some (fst (Routes.handler route
                  {| Express.params :=
                       bind_all (names (Routing.compile (Routes.path route)))
                         decoded;
                     query := Routes.in_query incoming;
                     body := Routes.in_body incoming |} service)),
     snd (Routes.handler route
            {| Express.params :=
                 bind_all (names (Routing.compile (Routes.path route)))
                   decoded;
               query := Routes.in_query incoming;
               body := Routes.in_body incoming |} service)).
Proof.
  intros Hroute Hmethod Hsegs Hvalue Hdecode Hauth.
  assert (Hraw : Routing.match_path (Routing.compile (Routes.path route))
                   (Routes.in_path incoming)
                 = Some ((fun name => (name, value))
                           <$> names (Routing.compile (Routes.path route)))).
  { unfold Routing.match_path. rewrite Hsegs.
    apply match_pieces_fill, Hvalue. }
  assert (Hmatches : route_matches route incoming)
    by (split; [symmetry; exact Hmethod | rewrite Hraw; eauto]).
  destruct (find_route_finds Routes.router incoming i route Hroute Hmatches)
    as (j & found & raw & Hfound & Hj & Hfmatches & Hfraw).
  assert (i = j).
  { eapply router_no_rivals; [exact Hroute | exact Hj |].
    eapply rivals_of_matches; eassumption. }
  subst j. rewrite Hroute in Hj. injection Hj as <-.
  rewrite Hraw in Hfraw. injection Hfraw as <-.
  unfold Routes.dispatch.
  rewrite Hauth, Hfound, (decode_bind_all _ value decoded Hdecode).
  destruct (Routes.handler route _ service); reflexivity.
Qed.

End Reach.

Lemma plain_decode_filled text decoded :
  plain_decode text = Some decoded -> text <> "" -> decoded <> "".
Proof. intros [= <-] Hfilled. exact Hfilled. Qed.

Lemma routed_refusals_witness :
  fst (Routes.dispatch open_door plain_decode
         (get "/blockchain/blockhash/latest") chain_service)
  = Some (Json 400 (failure "Valid block height is required"))
  /\ ("Valid block height is required" = "Valid block height is required"
      \/ "Valid block height is required"
         = "Address and amount are required").
Proof.
  assert (Hrun : fst (Routes.dispatch open_door plain_decode
                        (get "/blockchain/blockhash/latest") chain_service)
                 = Some (Json 400 (failure "Valid block height is required")))
    by (vm_compute; reflexivity).
  split; [exact Hrun|].
  apply (routed_refusals open_door plain_decode plain_decode_filled
           (get "/blockchain/blockhash/latest") chain_service
           "Valid block height is required" eq_refl Hrun).
Defined.

Lemma route_reaches_handler_witness :
  Routes.dispatch open_door plain_decode (get "/transaction/ab12/raw")
    chain_service
  = (Some (fst (ZCashController.getRawTransaction
                  {| Express.params := <["txid" := "ab12"]> ∅;
                     query := ∅; body := ∅ |} chain_service)),
     snd (ZCashController.getRawTransaction
            {| Express.params := <["txid" := "ab12"]> ∅;
               query := ∅; body := ∅ |} chain_service)).
Proof.
  apply (route_reaches_handler open_door plain_decode 10%nat
           {| Routes.method := Routing.GET;
              Routes.path := "/transaction/:txid/raw";
              Routes.handler := ZCashController.getRawTransaction |}
           "ab12" "ab12" (get "/transaction/ab12/raw") chain_service);
    try reflexivity.
  discriminate.
Defined.
